(** * sql_bigquery.py: the SQLBigQueryDataSource facade

    A shallow embedding of [src/sql_bigquery.py].  The class wraps a
    SQLAlchemy engine and a shared [MetaData] registry; every method is a
    computation over the facade object and the chronological trace of its
    interactions with the outside world (the BigQuery backend reached through
    SQLAlchemy, [random], [time.sleep], [print] and [logger.debug]).  The
    answers of the outside world are an oracle, universally quantified in the
    theorems. *)

From Stdlib Require Import ZArith Lia.
From Stdlib Require Import Floats.SpecFloat Floats.PrimFloat Floats.FloatOps.
From stdpp Require Import base list strings gmap.

Local Open Scope string_scope.
Local Open Scope list_scope.

(** ** Python strings: the [in] operator *)

Module PyStr.

(** [needle in hay] on [str]: substring test. *)
Fixpoint contains (needle hay : string) : bool :=
  if String.prefix needle hay then true
  else match hay with
       | EmptyString => false
       | String _ hay' => contains needle hay'
       end.

End PyStr.

(** ** Python floats: IEEE 754 binary64, round to nearest, ties to even *)

Module PyFloat.

Definition prec : Z := 53.
Definition emax : Z := 1024.

Definition float : Type := spec_float.

(** [float(i)] for a Python [int], as done implicitly by [int + float] and
    [int * float]. *)
Definition of_int (i : Z) : float := binary_normalize prec emax i 0 false.

Definition add (x y : float) : float := SFadd prec emax x y.
Definition mul (x y : float) : float := SFmul prec emax x y.
Definition leb (x y : float) : bool := SFleb x y.
Definition ltb (x y : float) : bool := SFltb x y.

(** The literal [0.1]: the binary64 number nearest to one tenth,
    [0x1.999999999999ap-4]. *)
Definition lit_0_1 : float := S754_finite false 7205759403792794 (-56).

(** [random.random()] returns [k / 2^53] for a 53-bit integer [k] drawn
    from the generator; every such quotient is a binary64 number. *)
Definition random_of_bits (k : Z) : float :=
  binary_normalize prec emax (k mod 2 ^ 53) (-53) false.

End PyFloat.

Abbreviation float := PyFloat.float.

(** ** Exceptions

    Faults of the SQLAlchemy and BigQuery client layers are instances of
    [Exception]; [exn_str] is [str(e)]. *)

Record exn := { exn_class : string; exn_str : string }.

(** ** SQLAlchemy schema objects *)

Inductive coltype := Integer | String_ | DateTime | OtherType (name : string).

Record Column := { column_name : string; column_type : coltype }.

(** A [Table] object: its name and its ordered column collection. *)
Record Table := { table_name : string; table_columns : list Column }.

(** [MetaData.tables]: the registry of [Table] objects.  A [Table] is
    registered under its own name, so the registry maps a name to the
    column collection of the [Table] of that name. *)
Abbreviation MetaData := (gmap string (list Column)).

(** [ColumnCollection.replace], used by [Table.append_column]: a column
    whose name is already present takes the place of the old one, a new
    name goes to the end. *)
Fixpoint replace_column (c : Column) (cols : list Column) : list Column :=
  match cols with
  | [] => [c]
  | c' :: cols' =>
      if String.eqb (column_name c') (column_name c) then c :: cols'
      else c' :: replace_column c cols'
  end.

Definition append_column (t : Table) (c : Column) : Table :=
  {| table_name := table_name t;
     table_columns := replace_column c (table_columns t) |}.

(** ** Query results *)

Inductive cell := CInt (z : Z) | CStr (s : string) | CNull.

(** [pandas.DataFrame(rows, columns=keys)]. *)
Record DataFrame := { df_columns : list string; df_rows : list (list cell) }.

(** ** The trace of interactions *)

Inductive logmsg :=
| LogError (e : exn)              (* f"Error: {e}" *)
| LogTableNotAvailable
| LogRateLimit (delay : float)    (* "Rate limit exceeded. Retrying ... in {delay} seconds..." *)
| LogDeleteRetry (delay : float)  (* "Table deletion failed. Retrying in {retry_delay} seconds..." *)
| LogDeleteExhausted.

(** Calls that reach the outside world, each with the answer it got. *)
Inductive event :=
| EvConnect (err : option exn)                       (* engine.connect() *)
| EvExecute (sql : string) (err : option exn)        (* connection.execute(text(sql)) *)
| EvFetchall (err : option exn)                      (* result.fetchall() *)
| EvClose                                            (* the with statement leaves: connection released *)
| EvAutoload (name : string) (err : option exn)      (* Table(name, metadata, autoload=True) reflecting *)
| EvCreateAll (tables : MetaData) (err : option exn) (* metadata.create_all() *)
| EvRandom (bits : Z)                                (* random.random() *)
| EvSleep (seconds : float)                          (* time.sleep(seconds) *)
| EvPrint (line : string)
| EvDebug (msg : logmsg).

Definition trace := list event.

(** The outside world: what each call answers, given everything that
    happened before it. *)
Record backend := {
  be_connect : trace -> option exn;
  be_execute : trace -> string -> exn + list string;   (* the result's keys() *)
  be_fetchall : trace -> exn + list (list cell);
  be_autoload : trace -> string -> exn + list Column;
  be_create_all : trace -> MetaData -> option exn;
  be_random : trace -> Z
}.

(** ** The facade object and the state of a run *)

Record SQLBigQueryDataSource := {
  project_id : string;
  dataset_id : string;
  engine : string;          (* the engine, given by its URL *)
  metadata : MetaData
}.

Record world := { self : SQLBigQueryDataSource; history : trace }.

Definition set_metadata (md : MetaData) (o : SQLBigQueryDataSource) :=
  {| project_id := project_id o; dataset_id := dataset_id o;
     engine := engine o; metadata := md |}.

(** ** Computations: state, exceptions, bounded iteration *)

Inductive outcome (A : Type) :=
| Returns (a : A)
| Raises (e : exn)
| OutOfFuel.
Arguments Returns {A} a.
Arguments Raises {A} e.
Arguments OutOfFuel {A}.

Definition M (A : Type) : Type := world -> outcome A * world.

Definition ret {A} (a : A) : M A := fun w => (Returns a, w).

Definition bind {A B} (m : M A) (k : A -> M B) : M B :=
  fun w =>
    match m w with
    | (Returns a, w') => k a w'
    | (Raises e, w') => (Raises e, w')
    | (OutOfFuel, w') => (OutOfFuel, w')
    end.

Notation "'let*' x ':=' m 'in' k" := (bind m (fun x => k))
  (at level 10, x name, m at level 100, k at level 200).
Notation "m ';;' k" := (bind m (fun _ => k))
  (at level 100, k at level 200, right associativity).

Definition raise {A} (e : exn) : M A := fun w => (Raises e, w).

(** [try: m  except Exception as e: handler e]. *)
Definition try_except {A} (m : M A) (handler : exn -> M A) : M A :=
  fun w =>
    match m w with
    | (Raises e, w') => handler e w'
    | r => r
    end.

(** [try: m  finally: cleanup], the shape of a [with] block's exit. *)
Definition finally {A} (m : M A) (cleanup : M unit) : M A :=
  fun w =>
    match m w with
    | (r, w') =>
        match cleanup w' with
        | (Returns _, w'') => (r, w'')
        | (Raises e, w'') => (Raises e, w'')
        | (OutOfFuel, w'') => (OutOfFuel, w'')
        end
    end.

Definition emit (ev : event) : M unit :=
  fun w => (Returns tt, {| self := self w; history := history w ++ [ev] |}).

Definition get_self : M SQLBigQueryDataSource := fun w => (Returns (self w), w).
Definition get_history : M trace := fun w => (Returns (history w), w).

Definition put_metadata (md : MetaData) : M unit :=
  fun w => (Returns tt, {| self := set_metadata md (self w); history := history w |}).

(** Control flow of a loop body: fall through to the next iteration with
    updated locals, or [return]. *)
Inductive flow (S A : Type) :=
| Continue (s : S)
| Return (a : A).
Arguments Continue {S A} s.
Arguments Return {S A} a.

(** [while cond(s): body] followed by the statements [orelse] after the
    loop; [fuel] bounds the number of iterations. *)
Fixpoint while {S A} (fuel : nat) (cond : S -> bool)
    (body : S -> M (flow S A)) (orelse : S -> M A) (s : S) : M A :=
  if cond s then
    match fuel with
    | O => fun w => (OutOfFuel, w)
    | Datatypes.S fuel' =>
        let* r := body s in
        match r with
        | Continue s' => while fuel' cond body orelse s'
        | Return a => ret a
        end
    end
  else orelse s.

(** [for x in xs: s = body s x]. *)
Fixpoint for_each {A S} (xs : list A) (body : S -> A -> M S) (s : S) : M S :=
  match xs with
  | [] => ret s
  | x :: xs' => let* s' := body s x in for_each xs' body s'
  end.

(** ** The class *)

(** [SQLBigQueryDataSource.__init__], lines 29 to 40.  [create_engine] is
    a call into SQLAlchemy and the BigQuery dialect, and it can raise (a URL
    that does not parse, credentials that are not found): [create_engine url]
    is the error it raises for [url], if any, and then no object is
    constructed.  [MetaData(bind=self.engine)] starts with no table. *)
Definition __init__ (create_engine : string -> option exn)
    (project_id dataset_id : string) : exn + SQLBigQueryDataSource :=
  match create_engine ("bigquery://" +:+ project_id) with
  | Some e => inl e
  | None =>
      inr {| project_id := project_id;
             dataset_id := dataset_id;
             engine := "bigquery://" +:+ project_id;
             metadata := ∅ |}
  end.

Definition max_retries : Z := 5.

Section Facade.

Variable be : backend.

(** *** Calls into the libraries *)

Definition engine_connect : M unit :=
  let* h := get_history in
  match be_connect be h with
  | Some e => emit (EvConnect (Some e)) ;; raise e
  | None => emit (EvConnect None)
  end.

Definition connection_execute (sql : string) : M (list string) :=
  let* h := get_history in
  match be_execute be h sql with
  | inl e => emit (EvExecute sql (Some e)) ;; raise e
  | inr keys => emit (EvExecute sql None) ;; ret keys
  end.

Definition result_fetchall : M (list (list cell)) :=
  let* h := get_history in
  match be_fetchall be h with
  | inl e => emit (EvFetchall (Some e)) ;; raise e
  | inr rows => emit (EvFetchall None) ;; ret rows
  end.

(** [with self.engine.connect() as connection: body]: the connection is
    closed when the block is left, by [return] or by an exception. *)
Definition with_connection {A} (body : M A) : M A :=
  engine_connect ;; finally body (emit EvClose).

(** [self.metadata.create_all()]: no [tables] argument, so the request
    covers the whole registry. *)
Definition metadata_create_all : M unit :=
  let* o := get_self in
  let* h := get_history in
  match be_create_all be h (metadata o) with
  | Some e => emit (EvCreateAll (metadata o) (Some e)) ;; raise e
  | None => emit (EvCreateAll (metadata o) None)
  end.

Definition random_random : M float :=
  let* h := get_history in
  let bits := (be_random be h mod 2 ^ 53)%Z in
  emit (EvRandom bits) ;; ret (PyFloat.random_of_bits bits).

(** [random.uniform(a, b)] is [a + (b - a) * self.random()]; [a] and
    [b] are Python ints here. *)
Definition random_uniform (a b : Z) : M float :=
  let* r := random_random in
  ret (PyFloat.add (PyFloat.of_int a)
         (PyFloat.mul (PyFloat.of_int (b - a)) r)).

Definition time_sleep (seconds : float) : M unit := emit (EvSleep seconds).
Definition print (line : string) : M unit := emit (EvPrint line).
Definition logger_debug (msg : logmsg) : M unit := emit (EvDebug msg).

(** [Table(name, self.metadata)]: the [Table] registered under [name] if
    there is one, else a new empty [Table], registered at once. *)
Definition Table_new (name : string) : M Table :=
  let* o := get_self in
  match metadata o !! name with
  | Some cols => ret {| table_name := name; table_columns := cols |}
  | None =>
      put_metadata (<[name := []]> (metadata o)) ;;
      ret {| table_name := name; table_columns := [] |}
  end.

(** [Table(name, self.metadata, autoload=True)]: the registered [Table]
    if there is one; else the columns are reflected from the backend, and
    the new [Table] stays registered only if that succeeds. *)
Definition Table_autoload (name : string) : M Table :=
  let* o := get_self in
  match metadata o !! name with
  | Some cols => ret {| table_name := name; table_columns := cols |}
  | None =>
      let* h := get_history in
      match be_autoload be h name with
      | inl e => emit (EvAutoload name (Some e)) ;; raise e
      | inr cols =>
          let t := foldl append_column
                     {| table_name := name; table_columns := [] |} cols in
          emit (EvAutoload name None) ;;
          put_metadata (<[name := table_columns t]> (metadata o)) ;; ret t
      end
  end.

(** [t.append_column(c)]: the [Table] object is the one the registry
    holds, so the registry sees the new column. *)
Definition Table_append_column (t : Table) (c : Column) : M Table :=
  let* o := get_self in
  let t' := append_column t c in
  put_metadata (<[table_name t := table_columns t']> (metadata o)) ;; ret t'.

(** *** Methods *)

(** [execute_query], lines 42 to 55. *)
Definition execute_query (query : string) : M DataFrame :=
  with_connection
    (let* keys := connection_execute query in
     let* rows := result_fetchall in
     ret {| df_columns := keys; df_rows := rows |}).

(** [get_table], lines 57 to 76: [table] is [None] unless the [Table]
    call returns. *)
Definition get_table (table_id : string) : M (option Table) :=
  let* o := get_self in
  try_except
    (let* table := Table_autoload (dataset_id o +:+ "." +:+ table_id) in
     ret (Some table))
    (fun e =>
       logger_debug (LogError e) ;;
       logger_debug LogTableNotAvailable ;;
       ret None).

(** One iteration of the loop of [create_table], lines 95 to 108. *)
Definition create_attempt (table_name : string) (try_count : Z)
  : M (flow Z bool) :=
  try_except
    (metadata_create_all ;;
     print ("Table '" +:+ table_name +:+ "' created successfully.") ;;
     ret (Return true))
    (fun e =>
       if PyStr.contains "Job exceeded rate limits" (exn_str e) then
         let* u := random_uniform 0 1 in
         let delay := PyFloat.add (PyFloat.of_int (2 ^ try_count)) u in
         logger_debug (LogRateLimit delay) ;;
         time_sleep delay ;;
         ret (Continue (try_count + 1)%Z)
       else raise e).

(** [create_table], lines 78 to 109.  [schema] is the dict in its iteration
    order.  The loop ends within [max_retries] iterations, which is the fuel
    it is given. *)
Definition create_table (table_id : string) (schema : list (string * coltype))
    (time_partitioning_field : option string) : M bool :=
  let* o := get_self in
  let table_name := dataset_id o +:+ "." +:+ table_id in
  let* new_table := Table_new table_name in
  for_each schema
    (fun t '(column_name, column_type) =>
       Table_append_column t
         {| column_name := column_name; column_type := column_type |})
    new_table ;;
  while (Z.to_nat max_retries)
    (fun try_count => (try_count <? max_retries)%Z)
    (create_attempt table_name)
    (fun _ => ret false)
    0%Z.

(** One iteration of the loop of [delete_table], lines 126 to 140. *)
Definition delete_attempt (table_name delete_statement : string)
    (retry_count : Z) : M (flow Z unit) :=
  try_except
    (with_connection (connection_execute delete_statement ;; ret tt) ;;
     print ("Table '" +:+ table_name +:+ "' deleted successfully.") ;;
     ret (Return tt))
    (fun e =>
       if PyStr.contains "exceeded quota for table update operations"
            (exn_str e) then
         let retry_delay :=
           PyFloat.mul (PyFloat.of_int (2 ^ retry_count)) PyFloat.lit_0_1 in
         logger_debug (LogDeleteRetry retry_delay) ;;
         time_sleep retry_delay ;;
         ret (Continue (retry_count + 1)%Z)
       else raise e).

(** [delete_table], lines 114 to 141; it returns [None] on every path
    that returns. *)
Definition delete_table (table_id : string) : M unit :=
  let* o := get_self in
  let table_name := dataset_id o +:+ "." +:+ table_id in
  let delete_statement := "DROP TABLE IF EXISTS " +:+ table_name in
  while (Z.to_nat max_retries)
    (fun retry_count => (retry_count <? max_retries)%Z)
    (delete_attempt table_name delete_statement)
    (fun _ => logger_debug LogDeleteExhausted)
    0%Z.

End Facade.

(** * Reading runs: the vocabulary of the properties *)

(** ** Traces *)

(** The attempts and the sleeps of a run, in order: a creation attempt is a
    [create_all] call, a drop attempt is the execution of a statement. *)
Inductive retry_step :=
| Attempt
| Sleep (seconds : float).

Definition view_event (ev : event) : option retry_step :=
  match ev with
  | EvCreateAll _ _ => Some Attempt
  | EvExecute _ _ => Some Attempt
  | EvSleep d => Some (Sleep d)
  | _ => None
  end.

Definition retry_view (evs : trace) : list retry_step := omap view_event evs.

Definition sleeps (evs : trace) : list float :=
  omap (fun ev => match ev with EvSleep d => Some d | _ => None end) evs.

(** The registries handed to [create_all], call by call. *)
Definition submitted (evs : trace) : list MetaData :=
  omap (fun ev => match ev with EvCreateAll md _ => Some md | _ => None end) evs.

(** The statements executed, call by call. *)
Definition executions (evs : trace) : list string :=
  omap (fun ev => match ev with EvExecute sql _ => Some sql | _ => None end) evs.

(** Connections acquired and not yet released at the end of a trace. *)
Fixpoint open_connections (evs : trace) : Z :=
  match evs with
  | [] => 0
  | EvConnect None :: evs' => 1 + open_connections evs'
  | EvClose :: evs' => open_connections evs' - 1
  | _ :: evs' => open_connections evs'
  end.

Definition with_history (w : world) (evs : trace) : world :=
  {| self := self w; history := history w ++ evs |}.

Definition with_metadata (w : world) (md : MetaData) : world :=
  {| self := set_metadata md (self w); history := history w |}.

(** ** Names, lines and delays *)

(** The fully-qualified name [f"{self.dataset_id}.{table_id}"]. *)
Definition qualified (w : world) (table_id : string) : string :=
  dataset_id (self w) +:+ "." +:+ table_id.

Definition drop_statement (name : string) : string :=
  "DROP TABLE IF EXISTS " +:+ name.

Definition created_line (name : string) : string :=
  "Table '" +:+ name +:+ "' created successfully.".
Definition deleted_line (name : string) : string :=
  "Table '" +:+ name +:+ "' deleted successfully.".

(** The substrings that mark an error as transient. *)
Definition rate_limit_marker : string := "Job exceeded rate limits".
Definition quota_marker : string := "exceeded quota for table update operations".

(** The registry after lines 87 to 90 of [create_table]: the columns of
    [schema] are appended, one by one, to the [Table] of that name. *)
Definition define_table (name : string) (schema : list (string * coltype))
    (md : MetaData) : MetaData :=
  <[name := foldl (fun cols '(n, ty) =>
                     replace_column {| column_name := n; column_type := ty |} cols)
                  (default [] (md !! name)) schema]> md.

(** The delay computed after a rate-limit error at counter [try_count], when
    the generator draws [bits]: [(2**try_count) + random.uniform(0, 1)]. *)
Definition create_delay (try_count bits : Z) : float :=
  PyFloat.add (PyFloat.of_int (2 ^ try_count))
    (PyFloat.add (PyFloat.of_int 0)
       (PyFloat.mul (PyFloat.of_int (1 - 0)) (PyFloat.random_of_bits bits))).

(** The delay computed after a quota error at counter [retry_count]:
    [(2**retry_count) * 0.1]. *)
Definition delete_delay (retry_count : Z) : float :=
  PyFloat.mul (PyFloat.of_int (2 ^ retry_count)) PyFloat.lit_0_1.

(** [d] lies in [[2^n, 2^n + 1)], and in [[2^n, 2^n + 1]]. *)
Definition within_half_open (n : Z) (d : float) : bool :=
  PyFloat.leb (PyFloat.of_int (2 ^ n)) d && PyFloat.ltb d (PyFloat.of_int (2 ^ n + 1)).
Definition within_closed (n : Z) (d : float) : bool :=
  PyFloat.leb (PyFloat.of_int (2 ^ n)) d && PyFloat.leb d (PyFloat.of_int (2 ^ n + 1)).

(** Five attempts, a sleep after each, the sleep after attempt [n] within
    the bounds [bounds n]. *)
Definition five_backoffs (bounds : Z -> float -> bool) (v : list retry_step) : Prop :=
  exists d0 d1 d2 d3 d4,
    v = [Attempt; Sleep d0; Attempt; Sleep d1; Attempt; Sleep d2;
         Attempt; Sleep d3; Attempt; Sleep d4] /\
    bounds 0%Z d0 = true /\ bounds 1%Z d1 = true /\ bounds 2%Z d2 = true /\
    bounds 3%Z d3 = true /\ bounds 4%Z d4 = true.

(** ** The two loops, call by call *)

Definition drawn_bits (be : backend) (h : trace) : Z := (be_random be h mod 2 ^ 53)%Z.

(** The calls of one rate-limited iteration of [create_table]. *)
Definition create_round (md : MetaData) (e : exn) (n bits : Z) : trace :=
  [EvCreateAll md (Some e); EvRandom bits;
   EvDebug (LogRateLimit (create_delay n bits)); EvSleep (create_delay n bits)].

(** What the [with] block of [delete_table] does on history [h]: the
    error it raises, if any, and the calls it makes. *)
Definition drop_block (be : backend) (h : trace) (stmt : string)
  : option exn * trace :=
  match be_connect be h with
  | Some e => (Some e, [EvConnect (Some e)])
  | None =>
      match be_execute be (h ++ [EvConnect None]) stmt with
      | inl e => (Some e, [EvConnect None; EvExecute stmt (Some e); EvClose])
      | inr _ => (None, [EvConnect None; EvExecute stmt None; EvClose])
      end
  end.

(** The calls of one quota-limited iteration of [delete_table], [block]
    being those of its [with] block. *)
Definition delete_round (block : trace) (n : Z) : trace :=
  block ++ [EvDebug (LogDeleteRetry (delete_delay n)); EvSleep (delete_delay n)].

(** [create_run be name md n h evs out]: entered with counter [n] on history
    [h] and registry [md], the loop of [create_table] makes the calls [evs]
    and ends with [out]. *)
Inductive create_run (be : backend) (name : string) (md : MetaData)
  : Z -> trace -> trace -> outcome bool -> Prop :=
| create_run_exhausted n h :
    (max_retries <= n)%Z ->
    create_run be name md n h [] (Returns false)
| create_run_success n h :
    (n < max_retries)%Z ->
    be_create_all be h md = None ->
    create_run be name md n h
      [EvCreateAll md None; EvPrint (created_line name)] (Returns true)
| create_run_fatal n h e :
    (n < max_retries)%Z ->
    be_create_all be h md = Some e ->
    PyStr.contains rate_limit_marker (exn_str e) = false ->
    create_run be name md n h [EvCreateAll md (Some e)] (Raises e)
| create_run_transient n h e evs out :
    (n < max_retries)%Z ->
    be_create_all be h md = Some e ->
    PyStr.contains rate_limit_marker (exn_str e) = true ->
    let round :=
      create_round md e n (drawn_bits be (h ++ [EvCreateAll md (Some e)])) in
    create_run be name md (n + 1) (h ++ round) evs out ->
    create_run be name md n h (round ++ evs) out.

(** [delete_run be name n h evs out]: the same for the loop of
    [delete_table]. *)
Inductive delete_run (be : backend) (name : string)
  : Z -> trace -> trace -> outcome unit -> Prop :=
| delete_run_exhausted n h :
    (max_retries <= n)%Z ->
    delete_run be name n h [EvDebug LogDeleteExhausted] (Returns tt)
| delete_run_success n h :
    (n < max_retries)%Z ->
    fst (drop_block be h (drop_statement name)) = None ->
    delete_run be name n h
      (snd (drop_block be h (drop_statement name)) ++ [EvPrint (deleted_line name)])
      (Returns tt)
| delete_run_fatal n h e :
    (n < max_retries)%Z ->
    fst (drop_block be h (drop_statement name)) = Some e ->
    PyStr.contains quota_marker (exn_str e) = false ->
    delete_run be name n h (snd (drop_block be h (drop_statement name))) (Raises e)
| delete_run_transient n h e evs out :
    (n < max_retries)%Z ->
    fst (drop_block be h (drop_statement name)) = Some e ->
    PyStr.contains quota_marker (exn_str e) = true ->
    let round := delete_round (snd (drop_block be h (drop_statement name))) n in
    delete_run be name (n + 1) (h ++ round) evs out ->
    delete_run be name n h (round ++ evs) out.

(** ** Faults *)

(** Every creation attempt fails with an error whose message contains the
    rate-limit substring. *)
Definition always_rate_limited (be : backend) : Prop :=
  forall h md, exists e,
    be_create_all be h md = Some e /\
    PyStr.contains rate_limit_marker (exn_str e) = true.

(** Every drop attempt is made and fails with an error whose message
    contains the quota substring. *)
Definition always_quota_exceeded (be : backend) : Prop :=
  forall h stmt,
    be_connect be h = None /\
    exists e, be_execute be h stmt = inl e /\
              PyStr.contains quota_marker (exn_str e) = true.

(** ** The retry state machine *)

Inductive rstate :=
| Attempting (n : Z)
| Succeeded
| FatalFailure
| ExhaustedRetries.

(** What an attempt met. *)
Inductive cause :=
| OnSuccess
| OnFatalError
| OnTransientError.

Definition classify (marker : string) (err : option exn) : cause :=
  match err with
  | None => OnSuccess
  | Some e =>
      if PyStr.contains marker (exn_str e) then OnTransientError else OnFatalError
  end.

(** The machine in the words of the specification: [Attempting(n)] goes to
    [Succeeded] on success, to [FatalFailure] on a non-matching error, to
    [Attempting(n+1)] on a transient error while [n < 5], and [Attempting(5)]
    goes to [ExhaustedRetries] on a further transient error. *)
Definition spec_next (s : rstate) (c : cause) : option rstate :=
  match s, c with
  | Attempting n, OnSuccess => Some Succeeded
  | Attempting n, OnFatalError => Some FatalFailure
  | Attempting n, OnTransientError =>
      if (n <? 5)%Z then Some (Attempting (n + 1))
      else if (n =? 5)%Z then Some ExhaustedRetries
      else None
  | _, _ => None
  end.

(** The machine of the two loops: attempts are made at counters 0 to 4, and
    the transient error met at counter 4 ends the loop. *)
Definition retry_next (s : rstate) (c : cause) : option rstate :=
  match s, c with
  | Attempting n, OnSuccess =>
      if (n <? max_retries)%Z then Some Succeeded else None
  | Attempting n, OnFatalError =>
      if (n <? max_retries)%Z then Some FatalFailure else None
  | Attempting n, OnTransientError =>
      if (n <? max_retries)%Z then
        Some (if (n + 1 <? max_retries)%Z then Attempting (n + 1)
              else ExhaustedRetries)
      else None
  | _, _ => None
  end.

Fixpoint run_machine (next : rstate -> cause -> option rstate)
    (s : rstate) (cs : list cause) : option rstate :=
  match cs with
  | [] => Some s
  | c :: cs' =>
      match next s c with
      | Some s' => run_machine next s' cs'
      | None => None
      end
  end.

Definition terminal (s : rstate) : bool :=
  match s with Attempting _ => false | _ => true end.

(** What the attempts of a run met, read off its trace. *)
Definition create_causes (evs : trace) : list cause :=
  omap (fun ev => match ev with
                  | EvCreateAll _ err => Some (classify rate_limit_marker err)
                  | _ => None
                  end) evs.

Definition delete_causes (evs : trace) : list cause :=
  omap (fun ev => match ev with
                  | EvConnect (Some e) => Some (classify quota_marker (Some e))
                  | EvExecute _ err => Some (classify quota_marker err)
                  | _ => None
                  end) evs.

Definition transient_count (cs : list cause) : nat :=
  length (List.filter (fun c => match c with OnTransientError => true | _ => false end) cs).

(** How each terminal state shows to the caller of [create_table] and of
    [delete_table]. *)
Definition create_ends (s : rstate) (out : outcome bool) : Prop :=
  match s with
  | Succeeded => out = Returns true
  | ExhaustedRetries => out = Returns false
  | FatalFailure => exists e, out = Raises e
  | Attempting _ => False
  end.

Definition delete_ends (s : rstate) (out : outcome unit) : Prop :=
  match s with
  | Succeeded | ExhaustedRetries => out = Returns tt
  | FatalFailure => exists e, out = Raises e
  | Attempting _ => False
  end.

(** ** Observing a call *)

(** The calls a method made: what the history gained from [w] to [w']. *)
Definition new_events (w w' : world) : trace :=
  drop (length (history w)) (history w').

(** [get_table] found nothing, whatever went wrong: it returns [None],
    leaves the facade as it was and logs the two debug lines. *)
Definition reports_absent (w : world) (name : string) (e : exn)
    (r : outcome (option Table) * world) : Prop :=
  r = (Returns None,
       with_history w [EvAutoload name (Some e); EvDebug (LogError e);
                       EvDebug LogTableNotAvailable]).

(** One execution of [query], no sleep, and no connection left open. *)
Definition executes_once (be : backend) (w : world) (query : string) : Prop :=
  let run := execute_query be query w in
  let evs := new_events w (snd run) in
  executions evs = [query] /\ sleeps evs = [] /\ open_connections evs = 0%Z.

(** The column of a schema entry. *)
Definition column_of (entry : string * coltype) : Column :=
  {| column_name := fst entry; column_type := snd entry |}.

(** Every registry handed to [create_all] by the call defines the table
    [dataset.table_id] with exactly the columns of [schema], in its order. *)
Definition submits_schema (be : backend) (w : world) (table_id : string)
    (schema : list (string * coltype)) (tpf : option string) : Prop :=
  let run := create_table be table_id schema tpf w in
  let evs := new_events w (snd run) in
  submitted evs <> [] /\
  Forall (fun md =>
            exists cols,
              md !! (dataset_id (self w) +:+ "." +:+ table_id) = Some cols /\
              length cols = length schema /\
              map column_name cols = map fst schema /\
              cols = map column_of schema)
         (submitted evs).

(** The numbers drawn from the generator, call by call. *)
Definition draws (evs : trace) : list Z :=
  omap (fun ev => match ev with EvRandom bits => Some bits | _ => None end) evs.

(** [count] attempts from counter [n] on, each followed by the sleep
    [delay] gives for its counter. *)
Fixpoint backoff_view (delay : Z -> float) (n : Z) (count : nat)
  : list retry_step :=
  match count with
  | O => []
  | S count' => Attempt :: Sleep (delay n) :: backoff_view delay (n + 1) count'
  end.

(** One attempt per drawn number from counter [n] on, each followed by the
    sleep of [create_delay]. *)
Fixpoint jitter_view (n : Z) (bits : list Z) : list retry_step :=
  match bits with
  | [] => []
  | b :: bits' => Attempt :: Sleep (create_delay n b) :: jitter_view (n + 1) bits'
  end.

(** [0.1 * 2^n], as the specification writes the delay of [delete_table]. *)
Definition tenth_times_pow2 (n : Z) : float :=
  PyFloat.mul PyFloat.lit_0_1 (PyFloat.of_int (2 ^ n)).

(** A run follows the machine [next]: from [Attempting(0)], what its
    attempts met leads to a terminal state, and the call ends as that state
    says. *)
Definition follows {A} (next : rstate -> cause -> option rstate)
    (ends : rstate -> outcome A -> Prop) (cs : list cause) (out : outcome A)
  : Prop :=
  exists s,
    run_machine next (Attempting 0) cs = Some s /\ terminal s = true /\ ends s out.

(** The state in which the loops are at counter [n]. *)
Definition state_at (n : Z) : rstate :=
  if (n <? max_retries)%Z then Attempting n else ExhaustedRetries.

(** [create_table] gives up after five attempts, having slept after
    attempt [n] for a delay within [bounds n], and returns [False]. *)
Definition exhausts_with_backoff (bounds : Z -> float -> bool) (be : backend)
    (w : world) (table_id : string) (schema : list (string * coltype))
    (tpf : option string) : Prop :=
  let run := create_table be table_id schema tpf w in
  let evs := new_events w (snd run) in
  fst run = Returns false /\
  five_backoffs bounds (retry_view evs).

(** ** Backends used in the examples *)

Definition exn_rate_limit : exn :=
  {| exn_class := "DatabaseError";
     exn_str := "403 Exceeded rate limits: Job exceeded rate limits: too many table update operations" |}.

Definition exn_quota : exn :=
  {| exn_class := "DatabaseError";
     exn_str := "403 Quota exceeded: Your table exceeded quota for table update operations." |}.

Definition exn_not_found : exn :=
  {| exn_class := "NoSuchTableError"; exn_str := "d.t" |}.

Definition exn_forbidden : exn :=
  {| exn_class := "Forbidden"; exn_str := "403 Access Denied: Dataset p:d" |}.

Definition exn_credentials : exn :=
  {| exn_class := "DefaultCredentialsError";
     exn_str := "Could not automatically determine credentials." |}.

(** A backend on which everything succeeds. *)
Definition be_ok : backend :=
  {| be_connect := fun _ => None;
     be_execute := fun _ _ => inr ["x"];
     be_fetchall := fun _ => inr [[CInt 1]];
     be_autoload := fun _ _ => inr [{| column_name := "x"; column_type := Integer |}];
     be_create_all := fun _ _ => None;
     be_random := fun _ => 0%Z |}.

(** A backend whose table operations always fail with [e], and whose
    generator always draws [bits]. *)
Definition be_failing (e : exn) (bits : Z) : backend :=
  {| be_connect := fun _ => None;
     be_execute := fun _ _ => inl e;
     be_fetchall := fun _ => inl e;
     be_autoload := fun _ _ => inl e;
     be_create_all := fun _ _ => Some e;
     be_random := fun _ => bits |}.

(** A backend that cannot be reached: no connection is obtained. *)
Definition be_unreachable : backend :=
  {| be_connect := fun _ => Some exn_credentials;
     be_execute := fun _ _ => inr [];
     be_fetchall := fun _ => inr [];
     be_autoload := fun _ _ => inl exn_credentials;
     be_create_all := fun _ _ => Some exn_credentials;
     be_random := fun _ => 0%Z |}.

(** A new facade for project [p] and dataset [d], nothing done yet: the
    object that [__init__] constructs when [create_engine] returns. *)
Definition fresh : world :=
  {| self := {| project_id := "p"; dataset_id := "d";
                engine := "bigquery://p"; metadata := ∅ |};
     history := [] |}.

(** A backend that answers the attempts of a run one by one: the [i]-th
    creation attempt and the [i]-th executed statement get the [i]-th answer
    of [script], and succeed once the script is over. *)
Definition be_scripted (script : list (option exn)) : backend :=
  {| be_connect := fun _ => None;
     be_execute := fun h _ =>
       match nth (length (executions h)) script None with
       | Some e => inl e
       | None => inr []
       end;
     be_fetchall := fun _ => inr [];
     be_autoload := fun _ _ => inr [];
     be_create_all := fun h _ => nth (length (submitted h)) script None;
     be_random := fun _ => 0%Z |}.

(** An answer that an attempt classifies as [c], for either marker. *)
Definition exn_transient : exn :=
  {| exn_class := "DatabaseError";
     exn_str := "Job exceeded rate limits: Your table exceeded quota for table update operations." |}.

Definition answer_of (c : cause) : option exn :=
  match c with
  | OnSuccess => None
  | OnFatalError => Some exn_forbidden
  | OnTransientError => Some exn_transient
  end.

(** ** More readings of a trace *)

(** The lines written to standard output, and the messages logged at debug
    level, in order. *)
Definition printed (evs : trace) : list string :=
  omap (fun ev => match ev with EvPrint line => Some line | _ => None end) evs.

Definition debugged (evs : trace) : list logmsg :=
  omap (fun ev => match ev with EvDebug msg => Some msg | _ => None end) evs.

(** The connections asked of the engine, each with the error it met. *)
Definition connections (evs : trace) : list (option exn) :=
  omap (fun ev => match ev with EvConnect err => Some err | _ => None end) evs.

(** The delays of [count] successive quota errors from counter [n] on. *)
Fixpoint delete_delays (n : Z) (count : nat) : list float :=
  match count with
  | O => []
  | S count' => delete_delay n :: delete_delays (n + 1) count'
  end.

(** The delays of successive rate-limit errors from counter [n] on, one per
    drawn number. *)
Fixpoint create_delays (n : Z) (bits : list Z) : list float :=
  match bits with
  | [] => []
  | b :: bits' => create_delay n b :: create_delays (n + 1) bits'
  end.

(** Each delay of [ds] is within the bounds of its counter, from [n] on. *)
Fixpoint within_bounds_from (n : Z) (ds : list float) : bool :=
  match ds with
  | [] => true
  | d :: ds' => within_closed n d && within_bounds_from (n + 1) ds'
  end.

(** No delay of [ds] is shorter than the one before it. *)
Fixpoint nondecreasing (ds : list float) : bool :=
  match ds with
  | d :: ((d' :: _) as ds') => PyFloat.leb d d' && nondecreasing ds'
  | _ => true
  end.

(** The first column of that name in a column collection: what
    [table.columns[name]] finds. *)
Fixpoint first_named (name : string) (cols : list Column) : option Column :=
  match cols with
  | [] => None
  | c :: cols' =>
      if String.eqb (column_name c) name then Some c else first_named name cols'
  end.

(** A backend on which no connection is obtained: [engine.connect()] always
    raises [e]. *)
Definition be_refusing (e : exn) : backend :=
  {| be_connect := fun _ => Some e;
     be_execute := fun _ _ => inr [];
     be_fetchall := fun _ => inr [];
     be_autoload := fun _ _ => inr [];
     be_create_all := fun _ _ => None;
     be_random := fun _ => 0%Z |}.



(** ** Exits

    [KeyboardInterrupt], [SystemExit] and [GeneratorExit] derive from
    [BaseException] and not from [Exception].  A handler
    [except Exception] does not match them: an exit raised inside the [try]
    leaves the method.  The reflection of a table is followed here with the
    exit it may meet. *)

Module Exits.

Inductive exit := KeyboardInterrupt | SystemExit (code : Z) | GeneratorExit.

(** A computation that an exit may cut short: [inl x] when [x] leaves the
    method; the facade is followed no further then. *)
Definition X (A : Type) : Type := world -> exit + outcome A * world.

Definition lift {A} (m : M A) : X A := fun w => inr (m w).

Definition bind {A B} (m : X A) (k : A -> X B) : X B :=
  fun w =>
    match m w with
    | inl x => inl x
    | inr (Returns a, w') => k a w'
    | inr (Raises e, w') => inr (Raises e, w')
    | inr (OutOfFuel, w') => inr (OutOfFuel, w')
    end.

(** [try: m  except Exception as e: handler e]: an exit is no instance of
    [Exception], the handler is not entered. *)
Definition try_except {A} (m : X A) (handler : exn -> X A) : X A :=
  fun w =>
    match m w with
    | inl x => inl x
    | inr (Raises e, w') => handler e w'
    | inr r => inr r
    end.

(** [Table(name, self.metadata, autoload=True)]: when the table is not
    registered the reflection runs, and meets the exit [exits h name], if
    any, on history [h]. *)
Definition Table_autoload (exits : trace -> string -> option exit)
    (be : backend) (name : string) : X Table :=
  fun w =>
    match metadata (self w) !! name, exits (history w) name with
    | None, Some x => inl x
    | _, _ => lift (Table_autoload be name) w
    end.

(** [get_table], lines 57 to 76. *)
Definition get_table (exits : trace -> string -> option exit)
    (be : backend) (table_id : string) : X (option Table) :=
  fun w =>
    try_except
      (bind (Table_autoload exits be (dataset_id (self w) +:+ "." +:+ table_id))
         (fun table => lift (ret (Some table))))
      (fun e =>
         lift (logger_debug (LogError e) ;;
               logger_debug LogTableNotAvailable ;;
               ret None))
      w.

End Exits.

(** ** Sequences of calls *)

(** A call of one of the four methods. *)
Inductive call :=
| CallExecuteQuery (query : string)
| CallGetTable (table_id : string)
| CallCreateTable (table_id : string) (schema : list (string * coltype))
    (time_partitioning_field : option string)
| CallDeleteTable (table_id : string).

(** The facade and the history after a call, served by the backend [be],
    whatever the call ended with. *)
Definition after_call (be : backend) (c : call) (w : world) : world :=
  match c with
  | CallExecuteQuery query => snd (execute_query be query w)
  | CallGetTable table_id => snd (get_table be table_id w)
  | CallCreateTable table_id schema time_partitioning_field =>
      snd (create_table be table_id schema time_partitioning_field w)
  | CallDeleteTable table_id => snd (delete_table be table_id w)
  end.

(** After a sequence of calls, each served by a backend of its own. *)
Definition after_calls (calls : list (backend * call)) (w : world) : world :=
  foldl (fun w' bc => after_call (fst bc) (snd bc) w') w calls.

(** [c] is a [create_table] of [table_id]. *)
Definition redefines (table_id : string) (c : call) : bool :=
  match c with
  | CallCreateTable table_id' _ _ => String.eqb table_id' table_id
  | _ => false
  end.

(** * Running the methods *)

(** ** Equations of the monad *)

Ltac run_monad :=
  unfold bind, try_except, finally, emit, raise, ret, get_self, get_history;
  cbn [fst snd self history].

Lemma bind_returns {A B} (m : M A) (k : A -> M B) w a w' :
  m w = (Returns a, w') -> bind m k w = k a w'.
Proof. intros H. unfold bind. now rewrite H. Qed.

Lemma bind_raises {A B} (m : M A) (k : A -> M B) w e w' :
  m w = (Raises e, w') -> bind m k w = (Raises e, w').
Proof. intros H. unfold bind. now rewrite H. Qed.

Lemma while_step {S A} fuel (cond : S -> bool) body (orelse : S -> M A) s :
  cond s = true ->
  while (Datatypes.S fuel) cond body orelse s =
  (let* r := body s in
   match r with
   | Continue s' => while fuel cond body orelse s'
   | Return a => ret a
   end).
Proof. intros H. simpl. now rewrite H. Qed.

Lemma while_exit {S A} fuel (cond : S -> bool) body (orelse : S -> M A) s :
  cond s = false -> while fuel cond body orelse s = orelse s.
Proof. intros H. destruct fuel; simpl; now rewrite H. Qed.

Lemma with_history_app w evs evs' :
  with_history (with_history w evs) evs' = with_history w (evs ++ evs').
Proof. unfold with_history. simpl. now rewrite <- app_assoc. Qed.

Lemma with_history_nil w : with_history w [] = w.
Proof. destruct w. unfold with_history. simpl. now rewrite app_nil_r. Qed.

Lemma with_metadata_id w md : md = metadata (self w) -> with_metadata w md = w.
Proof. intros ->. destruct w as [[] ?]. reflexivity. Qed.

(** ** The table definition built by [create_table] *)

Lemma for_each_append_column schema name cols w :
  for_each schema
    (fun t '(column_name, column_type) =>
       Table_append_column t
         {| column_name := column_name; column_type := column_type |})
    {| table_name := name; table_columns := cols |}
    (with_metadata w (<[name := cols]> (metadata (self w)))) =
  let cols' := foldl (fun cols '(n, ty) =>
                 replace_column {| column_name := n; column_type := ty |} cols)
                 cols schema in
  (Returns {| table_name := name; table_columns := cols' |},
   with_metadata w (<[name := cols']> (metadata (self w)))).
Proof.
  revert cols. induction schema as [|[n ty] schema IH]; intros cols.
  - reflexivity.
  - cbn [for_each foldl]. unfold bind at 1. cbn.
    unfold with_metadata in *. cbn in *.
    rewrite insert_insert_eq.
    specialize (IH (replace_column {| column_name := n; column_type := ty |} cols)).
    cbn in IH. exact IH.
Qed.

Lemma Table_new_run name w :
  Table_new name w =
  (Returns {| table_name := name;
              table_columns := default [] (metadata (self w) !! name) |},
   with_metadata w
     (<[name := default [] (metadata (self w) !! name)]> (metadata (self w)))).
Proof.
  unfold Table_new, bind, get_self.
  destruct (metadata (self w) !! name) as [cols|] eqn:E; cbn.
  - rewrite with_metadata_id; [reflexivity|]. now rewrite insert_id.
  - reflexivity.
Qed.

(** The statements of [create_table] before its loop leave [define_table]
    in the registry, and the loop starts from there. *)
Lemma create_table_prefix be table_id schema tpf w :
  create_table be table_id schema tpf w =
  while (Z.to_nat max_retries)
    (fun try_count => (try_count <? max_retries)%Z)
    (create_attempt be (qualified w table_id))
    (fun _ => ret false) 0%Z
    (with_metadata w
       (define_table (qualified w table_id) schema (metadata (self w)))).
Proof.
  unfold create_table. unfold bind at 1. cbn [get_self].
  erewrite bind_returns by apply Table_new_run.
  erewrite bind_returns by apply for_each_append_column.
  reflexivity.
Qed.

Lemma delete_table_prefix be table_id w :
  delete_table be table_id w =
  while (Z.to_nat max_retries)
    (fun retry_count => (retry_count <? max_retries)%Z)
    (delete_attempt be (qualified w table_id)
       (drop_statement (qualified w table_id)))
    (fun _ => logger_debug LogDeleteExhausted) 0%Z w.
Proof. reflexivity. Qed.

(** ** One iteration of each loop *)

Section Attempts.

Variable be : backend.

Lemma create_attempt_success name n w :
  be_create_all be (history w) (metadata (self w)) = None ->
  create_attempt be name n w =
  (Returns (Return true),
   with_history w [EvCreateAll (metadata (self w)) None;
                   EvPrint (created_line name)]).
Proof.
  intros H. unfold create_attempt, metadata_create_all, print. run_monad.
  rewrite H. run_monad. unfold with_history.
  now rewrite <- app_assoc.
Qed.

Lemma create_attempt_fatal name n w e :
  be_create_all be (history w) (metadata (self w)) = Some e ->
  PyStr.contains rate_limit_marker (exn_str e) = false ->
  create_attempt be name n w =
  (Raises e, with_history w [EvCreateAll (metadata (self w)) (Some e)]).
Proof.
  intros H Hc. unfold create_attempt, metadata_create_all, print. run_monad.
  rewrite H. run_monad. fold rate_limit_marker. rewrite Hc. reflexivity.
Qed.

Lemma create_attempt_transient name n w e :
  be_create_all be (history w) (metadata (self w)) = Some e ->
  PyStr.contains rate_limit_marker (exn_str e) = true ->
  create_attempt be name n w =
  (Returns (Continue (n + 1)%Z),
   with_history w
     (create_round (metadata (self w)) e n
        (drawn_bits be (history w ++ [EvCreateAll (metadata (self w)) (Some e)])))).
Proof.
  intros H Hc. unfold create_attempt, metadata_create_all, print. run_monad.
  rewrite H. run_monad. fold rate_limit_marker. rewrite Hc.
  unfold random_uniform, random_random, logger_debug, time_sleep. run_monad.
  unfold with_history, create_round, create_delay, drawn_bits.
  cbn [self history].
  repeat rewrite <- app_assoc. reflexivity.
Qed.

Lemma drop_block_run stmt w :
  with_connection be (connection_execute be stmt ;; ret tt) w =
  (match fst (drop_block be (history w) stmt) with
   | Some e => Raises e
   | None => Returns tt
   end,
   with_history w (snd (drop_block be (history w) stmt))).
Proof.
  unfold with_connection, engine_connect, connection_execute, drop_block.
  run_monad.
  destruct (be_connect be (history w)) as [e|]; run_monad.
  - reflexivity.
  - destruct (be_execute be (history w ++ [EvConnect None]) stmt) as [e|keys];
      run_monad; unfold with_history; cbn [self history fst snd];
      now repeat rewrite <- app_assoc.
Qed.

Lemma delete_attempt_success name stmt n w :
  fst (drop_block be (history w) stmt) = None ->
  delete_attempt be name stmt n w =
  (Returns (Return tt),
   with_history w
     (snd (drop_block be (history w) stmt) ++ [EvPrint (deleted_line name)])).
Proof.
  intros H. unfold delete_attempt.
  unfold try_except, bind at 1. rewrite drop_block_run, H.
  unfold print. run_monad. unfold with_history. cbn [self history].
  now rewrite <- app_assoc.
Qed.

Lemma delete_attempt_fatal name stmt n w e :
  fst (drop_block be (history w) stmt) = Some e ->
  PyStr.contains quota_marker (exn_str e) = false ->
  delete_attempt be name stmt n w =
  (Raises e, with_history w (snd (drop_block be (history w) stmt))).
Proof.
  intros H Hc. unfold delete_attempt.
  unfold try_except, bind at 1. rewrite drop_block_run, H.
  fold quota_marker. rewrite Hc. reflexivity.
Qed.

Lemma delete_attempt_transient name stmt n w e :
  fst (drop_block be (history w) stmt) = Some e ->
  PyStr.contains quota_marker (exn_str e) = true ->
  delete_attempt be name stmt n w =
  (Returns (Continue (n + 1)%Z),
   with_history w (delete_round (snd (drop_block be (history w) stmt)) n)).
Proof.
  intros H Hc. unfold delete_attempt.
  unfold try_except, bind at 1. rewrite drop_block_run, H.
  fold quota_marker. rewrite Hc.
  unfold logger_debug, time_sleep. run_monad.
  unfold with_history, delete_round, delete_delay. cbn [self history].
  now repeat rewrite <- app_assoc.
Qed.

End Attempts.

(** ** The loops follow [create_run] and [delete_run] *)

Lemma create_loop_run be name md fuel :
  forall n w,
    (0 <= n <= max_retries)%Z ->
    fuel = Z.to_nat (max_retries - n) ->
    metadata (self w) = md ->
    exists evs out,
      while fuel (fun try_count => (try_count <? max_retries)%Z)
        (create_attempt be name) (fun _ => ret false) n w =
      (out, with_history w evs) /\
      create_run be name md n (history w) evs out.
Proof.
  induction fuel as [|fuel IH]; intros n w Hn Hf Hmd.
  - assert (n = max_retries) as -> by lia.
    exists [], (Returns false). split.
    + rewrite while_exit by reflexivity. now rewrite with_history_nil.
    + constructor. lia.
  - assert (n < max_retries)%Z as Hlt by lia.
    assert ((n <? max_retries)%Z = true) as Hcond by (now apply Z.ltb_lt).
    destruct (be_create_all be (history w) md) as [e|] eqn:Hc.
    + destruct (PyStr.contains rate_limit_marker (exn_str e)) eqn:Hm.
      * set (round := create_round md e n
                        (drawn_bits be (history w ++ [EvCreateAll md (Some e)]))).
        destruct (IH (n + 1)%Z (with_history w round)) as (evs & out & Hrun & Hr);
          [lia | lia | exact Hmd |].
        exists (round ++ evs), out. split.
        -- rewrite while_step by exact Hcond.
           erewrite bind_returns
             by (apply create_attempt_transient; [rewrite Hmd; exact Hc | exact Hm]).
           rewrite Hmd. fold round. rewrite Hrun. now rewrite with_history_app.
        -- now apply create_run_transient.
      * exists [EvCreateAll md (Some e)], (Raises e). split.
        -- rewrite while_step by exact Hcond.
           erewrite bind_raises
             by (apply create_attempt_fatal; [rewrite Hmd; exact Hc | exact Hm]).
           now rewrite Hmd.
        -- now apply create_run_fatal.
    + exists [EvCreateAll md None; EvPrint (created_line name)], (Returns true).
      split.
      * rewrite while_step by exact Hcond.
        erewrite bind_returns
          by (apply create_attempt_success; rewrite Hmd; exact Hc).
        now rewrite Hmd.
      * now apply create_run_success.
Qed.

Lemma delete_loop_run be name fuel :
  forall n w,
    (0 <= n <= max_retries)%Z ->
    fuel = Z.to_nat (max_retries - n) ->
    exists evs out,
      while fuel (fun retry_count => (retry_count <? max_retries)%Z)
        (delete_attempt be name (drop_statement name))
        (fun _ => logger_debug LogDeleteExhausted) n w =
      (out, with_history w evs) /\
      delete_run be name n (history w) evs out.
Proof.
  induction fuel as [|fuel IH]; intros n w Hn Hf.
  - assert (n = max_retries) as -> by lia.
    exists [EvDebug LogDeleteExhausted], (Returns tt). split.
    + now rewrite while_exit by reflexivity.
    + constructor. lia.
  - assert (n < max_retries)%Z as Hlt by lia.
    assert ((n <? max_retries)%Z = true) as Hcond by (now apply Z.ltb_lt).
    destruct (fst (drop_block be (history w) (drop_statement name)))
      as [e|] eqn:Hc.
    + destruct (PyStr.contains quota_marker (exn_str e)) eqn:Hm.
      * set (round := delete_round
                        (snd (drop_block be (history w) (drop_statement name))) n).
        destruct (IH (n + 1)%Z (with_history w round)) as (evs & out & Hrun & Hr);
          [lia | lia |].
        exists (round ++ evs), out. split.
        -- rewrite while_step by exact Hcond.
           erewrite bind_returns
             by exact (delete_attempt_transient be name _ n w e Hc Hm).
           fold round. cbv beta iota. rewrite Hrun.
           now rewrite with_history_app.
        -- exact (delete_run_transient be name n (history w) e evs out Hlt Hc Hm Hr).
      * eexists _, (Raises e). split.
        -- rewrite while_step by exact Hcond.
           erewrite bind_raises
             by exact (delete_attempt_fatal be name _ n w e Hc Hm).
           reflexivity.
        -- now apply delete_run_fatal.
    + eexists _, (Returns tt). split.
      * rewrite while_step by exact Hcond.
        erewrite bind_returns
          by exact (delete_attempt_success be name _ n w Hc).
        reflexivity.
      * now apply delete_run_success.
Qed.

(** Every call of [create_table] is such a run from counter 0, on the
    registry that holds the new definition. *)
Lemma create_table_run be table_id schema tpf w :
  exists evs out,
    create_table be table_id schema tpf w =
    (out, with_history
            (with_metadata w
               (define_table (qualified w table_id) schema (metadata (self w))))
            evs) /\
    create_run be (qualified w table_id)
      (define_table (qualified w table_id) schema (metadata (self w)))
      0 (history w) evs out.
Proof.
  rewrite create_table_prefix.
  destruct (create_loop_run be (qualified w table_id)
              (define_table (qualified w table_id) schema (metadata (self w)))
              (Z.to_nat max_retries) 0%Z
              (with_metadata w
                 (define_table (qualified w table_id) schema (metadata (self w)))))
    as (evs & out & Hrun & Hr);
    [unfold max_retries; lia | reflexivity | reflexivity |].
  exists evs, out. split; assumption.
Qed.

Lemma delete_table_run be table_id w :
  exists evs out,
    delete_table be table_id w = (out, with_history w evs) /\
    delete_run be (qualified w table_id) 0 (history w) evs out.
Proof.
  rewrite delete_table_prefix.
  destruct (delete_loop_run be (qualified w table_id) (Z.to_nat max_retries) 0%Z w)
    as (evs & out & Hrun & Hr); [unfold max_retries; lia | reflexivity |].
  exists evs, out. split; assumption.
Qed.

(** * Binary64 arithmetic

    What [SpecFloat]'s rounding does to the numbers that occur in the two
    delays: digits, shifts, and round to nearest even on a positive
    mantissa in the normal range. *)

Section Binary64.

Local Open Scope Z_scope.

Lemma digits2_pos_size p : digits2_pos p = Pos.size p.
Proof. induction p; cbn; congruence. Qed.

Lemma digits2_pos_bounds p :
  2 ^ (Z.pos (digits2_pos p) - 1) <= Z.pos p < 2 ^ Z.pos (digits2_pos p).
Proof.
  rewrite digits2_pos_size.
  assert (2 ^ Z.pos (Pos.size p) = 2 * 2 ^ (Z.pos (Pos.size p) - 1)) as E.
  { rewrite <- Z.pow_succ_r by lia. f_equal. lia. }
  pose proof (Pos.size_le p) as Hle. pose proof (Pos.size_gt p) as Hgt.
  apply Pos2Z.pos_le_pos in Hle. apply Pos2Z.pos_lt_pos in Hgt.
  rewrite Pos2Z.inj_pow in Hle, Hgt.
  split; [|exact Hgt].
  rewrite E in Hle. change (Z.pos p~0) with (2 * Z.pos p) in Hle. clear E Hgt.
  generalize dependent (2 ^ (Z.pos (Pos.size p) - 1)). intros. lia.
Qed.

Lemma digits2_pos_unique p d :
  2 ^ (d - 1) <= Z.pos p < 2 ^ d -> Z.pos (digits2_pos p) = d.
Proof.
  intros [Hlo Hhi]. pose proof (digits2_pos_bounds p) as [Hlo' Hhi'].
  assert (0 < d).
  { destruct (Z.ltb_spec 0 d); [assumption|].
    assert (2 ^ d <= 2 ^ 0) by (apply Z.pow_le_mono_r; lia). cbn in *. lia. }
  assert (d - 1 < Z.pos (digits2_pos p)).
  { apply (Z.pow_lt_mono_r_iff 2); lia. }
  assert (Z.pos (digits2_pos p) - 1 < d).
  { apply (Z.pow_lt_mono_r_iff 2); lia. }
  lia.
Qed.

Lemma shr_1_nonneg m r s :
  0 <= m ->
  shr_1 (Build_shr_record m r s) = Build_shr_record (m / 2) (Z.odd m) (r || s).
Proof.
  intros Hm. rewrite <- Z.div2_div.
  destruct m as [|[p|p|]|p]; try reflexivity. lia.
Qed.

Lemma iter_pos_nat {A} (f : A -> A) p x :
  SpecFloat.iter_pos f p x = Nat.iter (Pos.to_nat p) f x.
Proof.
  revert x. induction p as [p IH|p IH|]; intros x; cbn [SpecFloat.iter_pos].
  - rewrite !IH, Pos2Nat.inj_xI, <- Nat.iter_add, <- Nat.iter_succ_r.
    f_equal. lia.
  - rewrite !IH, Pos2Nat.inj_xO, <- Nat.iter_add. f_equal. lia.
  - reflexivity.
Qed.

Lemma mod_pow2_succ m k :
  0 <= k ->
  (m mod 2 ^ (k + 1) =? 0) = (m mod 2 ^ k =? 0) && negb (Z.odd (m / 2 ^ k)).
Proof.
  intros Hk. rewrite Z.pow_add_r, Z.pow_1_r by lia.
  assert (0 < 2 ^ k) by (apply Z.pow_pos_nonneg; lia).
  rewrite Z.rem_mul_r by lia.
  rewrite Zmod_odd.
  pose proof (Z.mod_pos_bound m (2 ^ k) ltac:(lia)).
  destruct (Z.odd (m / 2 ^ k)); cbn [negb];
    destruct (Z.eqb_spec (m mod 2 ^ k) 0); cbn [andb];
    apply Z.eqb_neq || apply Z.eqb_eq; lia.
Qed.

Lemma shr_iter_nonneg m (k : nat) :
  0 <= m ->
  Nat.iter (S k) shr_1 (Build_shr_record m false false) =
  Build_shr_record (m / 2 ^ Z.of_nat (S k))
    (Z.odd (m / 2 ^ Z.of_nat k))
    (negb (m mod 2 ^ Z.of_nat k =? 0)).
Proof.
  intros Hm. induction k as [|k IH].
  - cbn [Nat.iter]. rewrite shr_1_nonneg by lia. cbn.
    rewrite Z.div_1_r, Z.mod_1_r. reflexivity.
  - rewrite Nat.iter_succ, IH.
    rewrite shr_1_nonneg by (apply Z.div_pos; [lia | apply Z.pow_pos_nonneg; lia]).
    f_equal.
    + rewrite Z.div_div by (try apply Z.pow_pos_nonneg; lia).
      f_equal. replace (Z.of_nat (S (S k))) with (Z.succ (Z.of_nat (S k))) by lia.
      rewrite Z.pow_succ_r by lia. lia.
    + replace (Z.of_nat (S k)) with (Z.of_nat k + 1) by lia.
      rewrite mod_pow2_succ by lia.
      destruct (m mod 2 ^ Z.of_nat k =? 0), (Z.odd (m / 2 ^ Z.of_nat k)); reflexivity.
Qed.

Lemma shr_nonneg m e sh :
  0 <= m -> 0 < sh ->
  shr (Build_shr_record m false false) e sh =
  (Build_shr_record (m / 2 ^ sh) (Z.odd (m / 2 ^ (sh - 1)))
     (negb (m mod 2 ^ (sh - 1) =? 0)),
   e + sh).
Proof.
  intros Hm Hsh. destruct sh as [|p|p]; try lia.
  cbn [shr]. rewrite iter_pos_nat.
  destruct (Pos2Nat.is_succ p) as [k Hk]. rewrite Hk.
  rewrite shr_iter_nonneg by lia.
  replace (Z.of_nat (S k)) with (Z.pos p) by lia.
  replace (Z.of_nat k) with (Z.pos p - 1) by lia.
  reflexivity.
Qed.

Lemma iter_xO_mul m d : Z.pos (Pos.iter xO m d) = Z.pos m * 2 ^ Z.pos d.
Proof.
  induction d as [|d IH] using Pos.peano_ind.
  - cbn. lia.
  - rewrite Pos.iter_succ, Pos2Z.inj_xO, IH, Pos2Z.inj_succ, Z.pow_succ_r; lia.
Qed.

Lemma fexp_normal x : -1021 <= x -> fexp 53 1024 x = x - 53.
Proof. intros H. unfold fexp, emin. lia. Qed.

Lemma binary_round_aux_exact m e :
  Z.pos (digits2_pos m) = 53 -> -1074 <= e <= 971 ->
  binary_round_aux 53 1024 false (Z.pos m) e loc_Exact = S754_finite false m e.
Proof.
  intros Hd He. unfold binary_round_aux, shr_fexp.
  cbn [Zdigits2 shr_record_of_loc]. rewrite Hd, fexp_normal by lia.
  replace (53 + e - 53 - e) with 0 by lia.
  cbn [shr shr_m loc_of_shr_record round_nearest_even Zdigits2 shr_record_of_loc].
  rewrite Hd, fexp_normal by lia.
  replace (53 + e - 53 - e) with 0 by lia.
  cbn [shr shr_m].
  replace (e <=? 1024 - 53) with true by (symmetry; apply Z.leb_le; lia).
  reflexivity.
Qed.

(** Rounding to nearest even moves up by at most one. *)
Lemma round_nearest_even_bounds q r s :
  q <= round_nearest_even q (loc_of_shr_record (Build_shr_record q r s)) <= q + 1.
Proof.
  destruct r, s; cbn; try lia. destruct (Z.even q); lia.
Qed.

Lemma binary_round_aux_shift m e sh :
  0 < sh ->
  Z.pos (digits2_pos m) = 53 + sh ->
  -1074 <= e + sh <= 970 ->
  let q := Z.pos m / 2 ^ sh in
  let q' := round_nearest_even q
              (loc_of_shr_record
                 (Build_shr_record q (Z.odd (Z.pos m / 2 ^ (sh - 1)))
                    (negb (Z.pos m mod 2 ^ (sh - 1) =? 0)))) in
  2 ^ 52 <= q < 2 ^ 53 /\
  binary_round_aux 53 1024 false (Z.pos m) e loc_Exact =
  if q' =? 2 ^ 53 then S754_finite false (2 ^ 52)%positive (e + sh + 1)
  else S754_finite false (Z.to_pos q') (e + sh).
Proof.
  intros Hsh Hd He q q'.
  assert (2 ^ 52 <= q < 2 ^ 53) as Hq.
  { pose proof (digits2_pos_bounds m) as [Hlo Hhi]. rewrite Hd in Hlo, Hhi.
    replace (53 + sh - 1) with (52 + sh) in Hlo by lia.
    rewrite Z.pow_add_r in Hlo, Hhi by lia.
    assert (0 < 2 ^ sh) by (apply Z.pow_pos_nonneg; lia).
    subst q. split.
    - apply Z.div_le_lower_bound; lia.
    - apply Z.div_lt_upper_bound; lia. }
  split; [exact Hq|].
  unfold binary_round_aux, shr_fexp.
  cbn [Zdigits2 shr_record_of_loc]. rewrite Hd, fexp_normal by lia.
  replace (53 + sh + e - 53 - e) with sh by lia.
  rewrite shr_nonneg by lia.
  fold q. cbn [shr_m]. fold q'.
  pose proof (round_nearest_even_bounds q (Z.odd (Z.pos m / 2 ^ (sh - 1)))
                (negb (Z.pos m mod 2 ^ (sh - 1) =? 0))) as Hq'.
  fold q' in Hq'.
  destruct (Z.eqb_spec q' (2 ^ 53)) as [E|E].
  - rewrite E. change (Zdigits2 (2 ^ 53)) with 54.
    rewrite fexp_normal by lia.
    replace (54 + (e + sh) - 53 - (e + sh)) with 1 by lia.
    change (shr {| shr_m := 2 ^ 53; shr_r := false; shr_s := false |} (e + sh) 1)
      with ({| shr_m := 2 ^ 52; shr_r := false; shr_s := false |}, e + sh + 1).
    cbv beta iota. cbn [shr_m].
    change (2 ^ 52) with (Z.pos (2 ^ 52)).
    replace (e + sh + 1 <=? 1024 - 53) with true by (symmetry; apply Z.leb_le; lia).
    reflexivity.
  - assert (2 ^ 52 <= q' < 2 ^ 53) as Hrange by lia.
    destruct q' as [|p|p] eqn:Ep; try lia.
    cbn [Zdigits2].
    rewrite (digits2_pos_unique p 53) by (cbn [Z.sub]; lia).
    rewrite fexp_normal by lia.
    replace (53 + (e + sh) - 53 - (e + sh)) with 0 by lia.
    cbn [shr shr_m Z.to_pos].
    replace (e + sh <=? 1024 - 53) with true by (symmetry; apply Z.leb_le; lia).
    reflexivity.
Qed.

Lemma digits2_pos_shifted m sh :
  0 <= sh ->
  Z.pos (digits2_pos (Z.to_pos (Z.pos m * 2 ^ sh))) = Z.pos (digits2_pos m) + sh.
Proof.
  intros Hsh. pose proof (digits2_pos_bounds m) as [Hlo Hhi].
  assert (0 < 2 ^ sh) by (apply Z.pow_pos_nonneg; lia).
  apply digits2_pos_unique. rewrite Z2Pos.id by lia.
  replace (Z.pos (digits2_pos m) + sh - 1) with (Z.pos (digits2_pos m) - 1 + sh) by lia.
  rewrite !Z.pow_add_r by lia. split.
  - apply Z.mul_le_mono_nonneg_r; lia.
  - apply Z.mul_lt_mono_pos_r; lia.
Qed.

(** A mantissa of at most 53 digits is shifted left to 53 digits: the
    number is kept as it is. *)
Lemma binary_round_small m e :
  Z.pos (digits2_pos m) <= 53 ->
  -1074 <= Z.pos (digits2_pos m) + e - 53 <= 971 ->
  binary_round 53 1024 false m e =
  S754_finite false (Z.to_pos (Z.pos m * 2 ^ (53 - Z.pos (digits2_pos m))))
    (e - (53 - Z.pos (digits2_pos m))).
Proof.
  intros Hd He. unfold binary_round, shl_align.
  rewrite fexp_normal by lia.
  destruct (Z.pos (digits2_pos m) + e - 53 - e) as [|p|p] eqn:Ediff; try lia.
  - assert (Z.pos (digits2_pos m) = 53) as E53 by lia. rewrite E53.
    replace (53 - 53) with 0 by lia. rewrite Z.mul_1_r, Z.sub_0_r. cbn [Z.to_pos].
    apply binary_round_aux_exact; lia.
  - assert (53 - Z.pos (digits2_pos m) = Z.pos p) as Ep by lia.
    rewrite Ep, <- iter_xO_mul. cbn [Z.to_pos].
    replace (e - Z.pos p) with (Z.pos (digits2_pos m) + e - 53) by lia.
    apply binary_round_aux_exact; [|lia].
    pose proof (digits2_pos_shifted m (Z.pos p) ltac:(lia)) as Hs.
    rewrite <- iter_xO_mul in Hs. cbn [Z.to_pos] in Hs. lia.
Qed.

(** A mantissa of more than 53 digits is rounded as it stands. *)
Lemma binary_round_large m e :
  53 < Z.pos (digits2_pos m) ->
  -1074 <= Z.pos (digits2_pos m) + e - 53 ->
  binary_round 53 1024 false m e =
  binary_round_aux 53 1024 false (Z.pos m) e loc_Exact.
Proof.
  intros Hd He. unfold binary_round, shl_align.
  rewrite fexp_normal by lia.
  destruct (Z.pos (digits2_pos m) + e - 53 - e) as [|p|p] eqn:Ediff; try lia;
    reflexivity.
Qed.

(** Multiplying by [1.0] changes nothing. *)
Lemma SFmul_one my ey :
  Z.pos (digits2_pos my) = 53 -> -1074 <= ey <= 970 ->
  SFmul 53 1024 (S754_finite false (2 ^ 52)%positive (-52)) (S754_finite false my ey) =
  S754_finite false my ey.
Proof.
  intros Hd He. cbn [SFmul xorb].
  pose proof (digits2_pos_bounds my) as [Hlo Hhi]. rewrite Hd in Hlo, Hhi.
  assert (Z.pos (2 ^ 52 * my) = Z.pos my * 2 ^ 52) as Eprod.
  { rewrite Pos2Z.inj_mul. change (Z.pos (2 ^ 52)) with (2 ^ 52). lia. }
  destruct (binary_round_aux_shift (2 ^ 52 * my) (-52 + ey) 52) as [_ Hround].
  - lia.
  - apply digits2_pos_unique. rewrite Eprod.
    change (53 + 52 - 1) with (52 + 52). change (53 + 52) with (53 + 52).
    rewrite !Z.pow_add_r by lia. cbn [Z.sub] in Hlo. nia.
  - lia.
  - rewrite Hround. clear Hround. rewrite Eprod.
    rewrite Z.div_mul by (apply Z.pow_nonzero; lia).
    replace (Z.pos my * 2 ^ 52) with (Z.pos my * 2 * 2 ^ (52 - 1))
      by (change (2 ^ 52) with (2 * 2 ^ (52 - 1)); lia).
    rewrite Z.div_mul by (apply Z.pow_nonzero; lia).
    rewrite Z.mod_mul by (apply Z.pow_nonzero; lia).
    rewrite Z.odd_mul. cbn [Z.eqb negb].
    replace (Z.odd (Z.pos my) && Z.odd 2) with false
      by (rewrite andb_false_r; reflexivity).
    cbn [loc_of_shr_record round_nearest_even].
    destruct (Z.eqb_spec (Z.pos my) (2 ^ 53)) as [E|E]; [lia|].
    cbn [Z.to_pos]. f_equal. lia.
Qed.

(** [2^n + y] for a binary64 number [y] with [2^-1074 <= y < 1]: the sum
    is rounded to a number between [2^n] and [2^n + 1], ends included. *)
Lemma SFadd_pow2_below_one n my ey :
  0 <= n <= 4 ->
  Z.pos (digits2_pos my) = 53 ->
  -1074 <= ey <= -53 ->
  exists q',
    2 ^ 52 <= q' <= 2 ^ 52 + 2 ^ (52 - n) /\
    SFadd 53 1024 (S754_finite false (2 ^ 52)%positive (n - 52))
      (S754_finite false my ey) =
    if q' =? 2 ^ 53 then S754_finite false (2 ^ 52)%positive (n - 51)
    else S754_finite false (Z.to_pos q') (n - 52).
Proof.
  intros Hn Hd He.
  pose proof (digits2_pos_bounds my) as [Hlo Hhi]. rewrite Hd in Hlo, Hhi.
  cbn [Z.sub Z.add Z.opp Z.pos_sub] in Hlo.
  set (sh := n - 52 - ey).
  assert (n + 1 <= sh) as Hsh by (unfold sh; lia).
  assert (0 < 2 ^ sh) as Hpow by (apply Z.pow_pos_nonneg; lia).
  destruct (ey - (n - 52)) as [|p|p] eqn:Ediff; try lia.
  assert (Z.pos p = sh) as Ep by (unfold sh; lia).
  set (M := (Pos.iter xO (2 ^ 52) p + my)%positive).
  assert (Z.pos M = 2 ^ 52 * 2 ^ sh + Z.pos my) as EM.
  { unfold M. rewrite Pos2Z.inj_add, iter_xO_mul, Ep. reflexivity. }
  assert (2 ^ 53 <= 2 ^ 52 * 2 ^ sh) as Hbig.
  { change (2 ^ 53) with (2 ^ 52 * 2 ^ 1). apply Z.mul_le_mono_nonneg_l; [lia|].
    apply Z.pow_le_mono_r; lia. }
  assert (Z.pos (digits2_pos M) = 53 + sh) as HdM.
  { apply digits2_pos_unique. rewrite EM.
    replace (53 + sh - 1) with (52 + sh) by lia.
    rewrite !Z.pow_add_r by lia. change (2 ^ 53) with (2 * 2 ^ 52) in *. lia. }
  destruct (binary_round_aux_shift M ey sh) as [Hq Hround];
    [lia | exact HdM | unfold sh; lia |].
  cbv zeta in Hround.
  set (q := Z.pos M / 2 ^ sh) in *.
  set (q' := round_nearest_even q _) in Hround.
  pose proof (round_nearest_even_bounds q (Z.odd (Z.pos M / 2 ^ (sh - 1)))
                (negb (Z.pos M mod 2 ^ (sh - 1) =? 0))) as Hq'.
  fold q' in Hq'.
  exists q'. split.
  - assert (q = 2 ^ 52 + Z.pos my / 2 ^ sh) as Eq.
    { unfold q. rewrite EM. rewrite Z.div_add_l by lia. reflexivity. }
    assert (Z.pos my / 2 ^ sh < 2 ^ (52 - n)) as Hfrac.
    { apply Z.div_lt_upper_bound; [lia|].
      assert (2 ^ (n + 1) <= 2 ^ sh) by (apply Z.pow_le_mono_r; lia).
      assert (0 < 2 ^ (52 - n)) by (apply Z.pow_pos_nonneg; lia).
      assert (2 ^ (n + 1) * 2 ^ (52 - n) = 2 ^ 53) as E53.
      { rewrite <- Z.pow_add_r by lia. f_equal. lia. }
      nia. }
    lia.
  - cbn [SFadd cond_Zopp]. rewrite Z.min_r by lia.
    unfold shl_align. rewrite Z.sub_diag, Ediff. cbn [fst].
    rewrite <- Pos2Z.inj_add. fold M. cbn [binary_normalize].
    rewrite binary_round_large by lia.
    rewrite Hround.
    replace (ey + sh + 1) with (n - 51) by (unfold sh; lia).
    replace (ey + sh) with (n - 52) by (unfold sh; lia).
    reflexivity.
Qed.

Lemma SFleb_same_exponent m1 m2 e :
  (m1 <= m2)%positive ->
  SFleb (S754_finite false m1 e) (S754_finite false m2 e) = true.
Proof.
  intros H. unfold SFleb, SFcompare. rewrite Z.compare_refl.
  change (Pos.compare_cont Eq m1 m2) with (Pos.compare m1 m2).
  destruct (Pos.compare_spec m1 m2); try reflexivity. lia.
Qed.

Lemma SFleb_lower_exponent m1 m2 e1 e2 :
  e1 < e2 ->
  SFleb (S754_finite false m1 e1) (S754_finite false m2 e2) = true.
Proof.
  intros H. unfold SFleb, SFcompare.
  apply Z.compare_lt_iff in H. now rewrite H.
Qed.

(** The machine's own binary64 arithmetic agrees with the model on the
    numbers of the examples: the literal [0.1], the largest number that
    [random.random()] returns, and the sum that reaches [2.0]. *)
Example literal_0_1_on_hardware :
  Prim2SF 0x1.999999999999ap-4%float = PyFloat.lit_0_1.
Proof. reflexivity. Qed.

Example largest_draw_on_hardware :
  Prim2SF 0x1.fffffffffffffp-1%float = PyFloat.random_of_bits (2 ^ 53 - 1).
Proof. reflexivity. Qed.

Example one_plus_largest_draw_on_hardware :
  Prim2SF (1 + 0x1.fffffffffffffp-1)%float = PyFloat.of_int 2 /\
  Prim2SF (16 + 0x1.fffffffffffffp-1)%float = PyFloat.of_int 17.
Proof. split; reflexivity. Qed.

End Binary64.

(** * Properties of the methods *)

Lemma new_events_with_history w evs : new_events w (with_history w evs) = evs.
Proof. unfold new_events, with_history. cbn. apply drop_app_length. Qed.

Lemma new_events_with_metadata w md evs :
  new_events w (with_history (with_metadata w md) evs) = evs.
Proof. unfold new_events, with_history, with_metadata. cbn. apply drop_app_length. Qed.

(** ** [get_table] *)

Lemma Table_autoload_registered be name cols w :
  metadata (self w) !! name = Some cols ->
  Table_autoload be name w =
  (Returns {| table_name := name; table_columns := cols |}, w).
Proof. intros H. unfold Table_autoload. run_monad. now rewrite H. Qed.

Lemma Table_autoload_fails be name e w :
  metadata (self w) !! name = None ->
  be_autoload be (history w) name = inl e ->
  Table_autoload be name w = (Raises e, with_history w [EvAutoload name (Some e)]).
Proof. intros H He. unfold Table_autoload. run_monad. now rewrite H, He. Qed.

Lemma get_table_failure be table_id e w :
  metadata (self w) !! qualified w table_id = None ->
  be_autoload be (history w) (qualified w table_id) = inl e ->
  reports_absent w (qualified w table_id) e (get_table be table_id w).
Proof.
  intros H He. unfold reports_absent, get_table. run_monad.
  fold (qualified w table_id).
  rewrite (Table_autoload_fails be _ e w H He).
  unfold logger_debug. run_monad. unfold with_history. cbn.
  now repeat rewrite <- app_assoc.
Qed.

(** Every [Exception] of the reflection is caught: whatever the backend
    answers, the call returns; it returns the table handle when the
    underlying [Table(..., autoload=True)] returns one, and [None] when that
    raises, whatever the error is. *)
Lemma get_table_catches_every_exception (be : backend) (w : world) (table_id : string) :
  exists r w',
    get_table be table_id w = (Returns r, w') /\
    match fst (Table_autoload be (qualified w table_id) w) with
    | Returns t => r = Some t
    | Raises _ => r = None /\ self w' = self w
    | OutOfFuel => False
    end.
Proof.
  unfold get_table. run_monad. fold (qualified w table_id).
  destruct (metadata (self w) !! qualified w table_id) as [cols|] eqn:Hreg.
  - rewrite (Table_autoload_registered be _ cols w Hreg). cbn. eauto.
  - unfold Table_autoload. run_monad. rewrite Hreg.
    destruct (be_autoload be (history w) (qualified w table_id)) as [e|cols];
      unfold logger_debug, put_metadata; run_monad; cbn; eauto.
Qed.

Lemma get_table_without_exit exits be table_id w :
  (metadata (self w) !! qualified w table_id = None ->
   exits (history w) (qualified w table_id) = None) ->
  Exits.get_table exits be table_id w = inr (get_table be table_id w).
Proof.
  intros Hno.
  unfold Exits.get_table, Exits.try_except, Exits.bind, Exits.Table_autoload,
    Exits.lift, get_table.
  run_monad. fold (qualified w table_id).
  destruct (metadata (self w) !! qualified w table_id) as [cols|] eqn:Hreg.
  - destruct (Table_autoload be (qualified w table_id) w) as [[t|e|] w'];
      reflexivity.
  - rewrite (Hno eq_refl).
    destruct (Table_autoload be (qualified w table_id) w) as [[t|e|] w'];
      reflexivity.
Qed.

Lemma get_table_with_exit exits be table_id w x :
  metadata (self w) !! qualified w table_id = None ->
  exits (history w) (qualified w table_id) = Some x ->
  Exits.get_table exits be table_id w = inl x.
Proof.
  intros Hreg Hx.
  unfold Exits.get_table, Exits.try_except, Exits.bind, Exits.Table_autoload.
  fold (qualified w table_id). now rewrite Hreg, Hx.
Qed.

(** C4, as the code has it: the handler of [get_table] is
    [except Exception].  Every fault of the reflection that is an instance
    of [Exception] is caught: the call returns, with the table handle when
    the underlying [Table(..., autoload=True)] returns one and with [None]
    when that raises, whatever the error is, so a missing table and any
    other such failure look the same to the caller.  Only an exit raised
    while the reflection runs ([KeyboardInterrupt], [SystemExit],
    [GeneratorExit]) is not caught, and leaves [get_table]. *)
Theorem get_table_raises_only_exits (exits : trace -> string -> option Exits.exit)
    (be : backend) (w : world) (table_id : string) :
  let name := dataset_id (self w) +:+ "." +:+ table_id in
  match metadata (self w) !! name, exits (history w) name with
  | None, Some x => Exits.get_table exits be table_id w = inl x
  | _, _ =>
      exists r w',
        Exits.get_table exits be table_id w = inr (Returns r, w') /\
        match fst (Table_autoload be name w) with
        | Returns t => r = Some t
        | Raises _ => r = None /\ self w' = self w
        | OutOfFuel => False
        end
  end.
Proof.
  intros name. subst name. fold (qualified w table_id).
  destruct (get_table_catches_every_exception be w table_id) as (r & w' & Hget & Hr).
  destruct (metadata (self w) !! qualified w table_id) as [cols|] eqn:Hreg.
  - exists r, w'. split; [|exact Hr].
    rewrite get_table_without_exit; [now rewrite Hget|].
    intros Hnone. rewrite Hreg in Hnone. discriminate Hnone.
  - destruct (exits (history w) (qualified w table_id)) as [x|] eqn:Hx.
    + now apply get_table_with_exit.
    + exists r, w'. split; [|exact Hr].
      rewrite get_table_without_exit; [now rewrite Hget|]. intros _. exact Hx.
Qed.

(** A [KeyboardInterrupt] raised while the table is reflected is not caught:
    [get_table] does not return, the interrupt reaches the caller. *)
Lemma get_table_interrupted :
  Exits.get_table (fun _ _ => Some Exits.KeyboardInterrupt) be_ok "t" fresh =
    inl Exits.KeyboardInterrupt /\
  ~ (exists r w',
        Exits.get_table (fun _ _ => Some Exits.KeyboardInterrupt) be_ok "t" fresh =
          inr (Returns r, w')).
Proof.
  split; [reflexivity|].
  intros (r & w' & H). vm_compute in H. discriminate H.
Qed.

(** A missing table and a permission error are reported alike. *)
Example get_table_missing_or_forbidden :
  fst (get_table (be_failing exn_not_found 0) "t" fresh) = Returns None /\
  fst (get_table (be_failing exn_forbidden 0) "t" fresh) = Returns None.
Proof. split; reflexivity. Qed.

(** ** [create_table]: the unused parameter *)

(** C8: [time_partitioning_field] is accepted and never used: for any two
    values of it, [create_table] builds the same table definition, makes the
    same calls and sleeps, and ends with the same outcome. *)
Theorem time_partitioning_field_unused (be : backend) (w : world)
    (table_id : string) (schema : list (string * coltype))
    (field1 field2 : option string) :
  let run1 := create_table be table_id schema field1 w in
  let run2 := create_table be table_id schema field2 w in
  metadata (self (snd run1)) = metadata (self (snd run2)) /\
  new_events w (snd run1) = new_events w (snd run2) /\
  fst run1 = fst run2 /\
  run1 = run2.
Proof.
  intros run1 run2. subst run1 run2.
  rewrite (create_table_prefix be table_id schema field1 w).
  rewrite (create_table_prefix be table_id schema field2 w).
  repeat split.
Qed.

(** ** Fatal errors *)

Lemma create_table_fatal be w table_id schema tpf e :
  be_create_all be (history w)
    (define_table (qualified w table_id) schema (metadata (self w))) = Some e ->
  PyStr.contains rate_limit_marker (exn_str e) = false ->
  create_table be table_id schema tpf w =
  (Raises e,
   with_history
     (with_metadata w
        (define_table (qualified w table_id) schema (metadata (self w))))
     [EvCreateAll
        (define_table (qualified w table_id) schema (metadata (self w)))
        (Some e)]).
Proof.
  intros He Hm. rewrite create_table_prefix.
  change (Z.to_nat max_retries) with 5%nat.
  rewrite while_step by reflexivity.
  erewrite bind_raises by (apply create_attempt_fatal; [exact He | exact Hm]).
  reflexivity.
Qed.

Lemma delete_table_fatal be w table_id e :
  fst (drop_block be (history w) (drop_statement (qualified w table_id))) = Some e ->
  PyStr.contains quota_marker (exn_str e) = false ->
  delete_table be table_id w =
  (Raises e,
   with_history w
     (snd (drop_block be (history w) (drop_statement (qualified w table_id))))).
Proof.
  intros He Hm. rewrite delete_table_prefix.
  change (Z.to_nat max_retries) with 5%nat.
  rewrite while_step by reflexivity.
  erewrite bind_raises by exact (delete_attempt_fatal be _ _ 0%Z w e He Hm).
  reflexivity.
Qed.

(** C3: when the first attempt of [create_table] or of [delete_table] fails
    with an error whose message does not contain that operation's transient
    substring, the call raises that very error at once: one attempt, no
    sleep, nothing else done. *)
Theorem fatal_error_reraised (be : backend) (w : world) (table_id : string)
    (e : exn) :
  (forall schema tpf,
      be_create_all be (history w)
        (define_table (qualified w table_id) schema (metadata (self w))) = Some e ->
      PyStr.contains "Job exceeded rate limits" (exn_str e) = false ->
      let run := create_table be table_id schema tpf w in
      fst run = Raises e /\
      retry_view (new_events w (snd run)) = [Attempt] /\
      new_events w (snd run) =
        [EvCreateAll
           (define_table (qualified w table_id) schema (metadata (self w)))
           (Some e)]) /\
  (be_connect be (history w) = None ->
   be_execute be (history w ++ [EvConnect None])
     (drop_statement (qualified w table_id)) = inl e ->
   PyStr.contains "exceeded quota for table update operations" (exn_str e) = false ->
   let run := delete_table be table_id w in
   fst run = Raises e /\
   retry_view (new_events w (snd run)) = [Attempt] /\
   new_events w (snd run) =
     [EvConnect None;
      EvExecute (drop_statement (qualified w table_id)) (Some e);
      EvClose]).
Proof.
  split.
  - intros schema tpf He Hm run. subst run.
    rewrite (create_table_fatal be w table_id schema tpf e He Hm).
    cbn [fst snd]. rewrite new_events_with_metadata. auto.
  - intros Hc He Hm run. subst run.
    assert (drop_block be (history w) (drop_statement (qualified w table_id)) =
            (Some e, [EvConnect None;
                      EvExecute (drop_statement (qualified w table_id)) (Some e);
                      EvClose])) as Hblock.
    { unfold drop_block. now rewrite Hc, He. }
    rewrite (delete_table_fatal be w table_id e);
      [ | now rewrite Hblock | exact Hm ].
    rewrite Hblock. cbn [fst snd]. rewrite new_events_with_history. auto.
Qed.

Lemma fatal_error_reraised_witness :
  fst (create_table (be_failing exn_forbidden 0) "t" [("a", Integer)] None fresh) =
    Raises exn_forbidden /\
  fst (delete_table (be_failing exn_forbidden 0) "t" fresh) = Raises exn_forbidden.
Proof.
  destruct (fatal_error_reraised (be_failing exn_forbidden 0) fresh "t" exn_forbidden)
    as [Hcreate Hdelete].
  split.
  - apply (Hcreate [("a", Integer)] None); reflexivity.
  - apply Hdelete; reflexivity.
Defined.

(** ** [execute_query] *)

(** C5, as the code has it: [execute_query] never retries and never sleeps,
    and a connection it acquired is released before it returns, on success
    and on failure.  When the connection is acquired the literal query text
    is executed exactly once, and a failure of the execution or of the fetch
    reaches the caller as it was raised; when acquiring the connection fails,
    that error reaches the caller and nothing is executed. *)
Theorem execute_query_single_attempt (be : backend) (w : world) (query : string) :
  let run := execute_query be query w in
  let evs := new_events w (snd run) in
  history (snd run) = history w ++ evs /\
  self (snd run) = self w /\
  sleeps evs = [] /\
  open_connections evs = 0%Z /\
  match be_connect be (history w) with
  | Some e => fst run = Raises e /\ executions evs = []
  | None =>
      executions evs = [query] /\
      last evs = Some EvClose /\
      match fst run with
      | Returns df => In (EvExecute query None) evs /\ In (EvFetchall None) evs
      | Raises e =>
          In (EvExecute query (Some e)) evs \/ In (EvFetchall (Some e)) evs
      | OutOfFuel => False
      end
  end.
Proof.
  unfold execute_query, with_connection, engine_connect, connection_execute,
    result_fetchall.
  run_monad.
  destruct (be_connect be (history w)) as [e|]; run_monad.
  - change {| self := self w; history := history w ++ [EvConnect (Some e)] |}
      with (with_history w [EvConnect (Some e)]).
    rewrite new_events_with_history. cbn. repeat split.
  - destruct (be_execute be (history w ++ [EvConnect None]) query) as [e|keys];
      run_monad.
    + repeat rewrite <- app_assoc. cbn [app].
      change {| self := self w;
                history := history w ++
                  [EvConnect None; EvExecute query (Some e); EvClose] |}
        with (with_history w [EvConnect None; EvExecute query (Some e); EvClose]).
      rewrite new_events_with_history. cbn. repeat split; auto 10.
    + destruct (be_fetchall be
                  ((history w ++ [EvConnect None]) ++ [EvExecute query None]))
        as [e|rows]; run_monad; repeat rewrite <- app_assoc; cbn [app].
      * change {| self := self w;
                  history := history w ++
                    [EvConnect None; EvExecute query None;
                     EvFetchall (Some e); EvClose] |}
          with (with_history w [EvConnect None; EvExecute query None;
                                EvFetchall (Some e); EvClose]).
        rewrite new_events_with_history. cbn. repeat split; auto 10.
      * change {| self := self w;
                  history := history w ++
                    [EvConnect None; EvExecute query None;
                     EvFetchall None; EvClose] |}
          with (with_history w [EvConnect None; EvExecute query None;
                                EvFetchall None; EvClose]).
        rewrite new_events_with_history. cbn. repeat split; auto 10.
Qed.

(** "Exactly one execution for every call" fails when no connection can be
    acquired: nothing is executed then. *)
Lemma execute_query_unreachable :
  new_events fresh (snd (execute_query be_unreachable "SELECT 1 AS x" fresh)) =
    [EvConnect (Some exn_credentials)] /\
  ~ executes_once be_unreachable fresh "SELECT 1 AS x".
Proof.
  split; [reflexivity|].
  intros [H _]. vm_compute in H. discriminate H.
Qed.

(** [RunQuery("SELECT 1 AS x")] on a working connection. *)
Example execute_query_select_1 :
  fst (execute_query be_ok "SELECT 1 AS x" fresh) =
    Returns {| df_columns := ["x"]; df_rows := [[CInt 1]] |} /\
  executes_once be_ok fresh "SELECT 1 AS x".
Proof. split; [reflexivity | repeat split]. Qed.

(** ** [create_table]: the registry *)

Lemma create_run_submitted be name md n h evs out :
  create_run be name md n h evs out ->
  Forall (eq md) (submitted evs) /\
  ((n < max_retries)%Z -> submitted evs <> []) /\
  (out = Returns true \/ out = Returns false \/ exists e, out = Raises e).
Proof.
  induction 1 as [n h Hn | n h Hn Hc | n h e Hn Hc Hm
                 | n h e evs out Hn Hc Hm round Hrun IH].
  - cbn. split; [constructor | split; [lia | auto]].
  - cbn. split; [repeat constructor | split; [discriminate | auto]].
  - cbn. split; [repeat constructor | split; [discriminate | eauto]].
  - destruct IH as (IH1 & _ & IH3).
    unfold submitted in *. rewrite omap_app. cbn.
    split; [now constructor | split; [discriminate | exact IH3]].
Qed.

Lemma define_table_lookup name schema md :
  is_Some (define_table name schema md !! name).
Proof. unfold define_table. rewrite lookup_insert_eq. eauto. Qed.

Lemma define_table_other name schema md other :
  other <> name -> define_table name schema md !! other = md !! other.
Proof. intros H. unfold define_table. now rewrite lookup_insert_ne. Qed.

(** C9: [create_table] registers the table definition in the facade's
    shared metadata before its first creation attempt, and the definition is
    still registered when the call ends, whether it returns [True], returns
    [False] or raises: nothing is rolled back.  So a call that fails has
    changed the registry of a facade that did not hold the table; and the
    registry is as it was exactly when the definition it holds for the
    table after the call is the one it held before. *)
Theorem create_table_registers (be : backend) (w : world) (table_id : string)
    (schema : list (string * coltype)) (tpf : option string) :
  let name := dataset_id (self w) +:+ "." +:+ table_id in
  let run := create_table be table_id schema tpf w in
  let evs := new_events w (snd run) in
  (fst run = Returns true \/ fst run = Returns false \/
   exists e, fst run = Raises e) /\
  submitted evs <> [] /\
  Forall (fun md => is_Some (md !! name)) (submitted evs) /\
  is_Some (metadata (self (snd run)) !! name) /\
  metadata (self (snd run)) = define_table name schema (metadata (self w)) /\
  (metadata (self w) !! name = None ->
   metadata (self (snd run)) <> metadata (self w)) /\
  (metadata (self (snd run)) = metadata (self w) <->
   metadata (self (snd run)) !! name = metadata (self w) !! name).
Proof.
  intros name run evs. subst run evs.
  destruct (create_table_run be table_id schema tpf w) as (evs & out & Hrun & Hr).
  rewrite Hrun. cbn [fst snd]. rewrite new_events_with_metadata.
  apply create_run_submitted in Hr. destruct Hr as (Hall & Hne & Hout).
  fold (qualified w table_id) in name. subst name.
  split; [exact Hout|]. split; [apply Hne; reflexivity|].
  split.
  - eapply Forall_impl; [exact Hall|]. intros md <-. apply define_table_lookup.
  - split; [apply define_table_lookup|]. split; [reflexivity|].
    split.
    + intros Hfree Heq. cbn in Heq.
      pose proof (define_table_lookup (qualified w table_id) schema
                    (metadata (self w))) as [cols Hcols].
      rewrite Heq in Hcols. congruence.
    + cbn [self with_history with_metadata set_metadata metadata].
      split; [intros Heq; now rewrite Heq|].
      unfold define_table. rewrite lookup_insert_eq. intros Heq.
      apply insert_id. symmetry. exact Heq.
Qed.

(** The three outcomes, each leaving the definition registered. *)
Example create_table_registers_in_all_outcomes :
  let registered be :=
    metadata (self (snd (create_table be "t" [("a", Integer)] None fresh))) !! "d.t" in
  fst (create_table be_ok "t" [("a", Integer)] None fresh) = Returns true /\
  registered be_ok = Some [{| column_name := "a"; column_type := Integer |}] /\
  fst (create_table (be_failing exn_rate_limit 0) "t" [("a", Integer)] None fresh) =
    Returns false /\
  registered (be_failing exn_rate_limit 0) =
    Some [{| column_name := "a"; column_type := Integer |}] /\
  fst (create_table (be_failing exn_forbidden 0) "t" [("a", Integer)] None fresh) =
    Raises exn_forbidden /\
  registered (be_failing exn_forbidden 0) =
    Some [{| column_name := "a"; column_type := Integer |}].
Proof. vm_compute. repeat split. Qed.

(** A call that fails need not change the facade: when an earlier call has
    registered the definition, a failing [create_table] of the same table
    with the same schema raises and leaves the facade as it was. *)
Lemma failed_create_table_changes_nothing :
  let w1 := snd (create_table (be_failing exn_forbidden 0) "t" [("a", Integer)] None
                   fresh) in
  let run := create_table (be_failing exn_forbidden 0) "t" [("a", Integer)] None w1 in
  fst run = Raises exn_forbidden /\
  self (snd run) = self w1 /\
  ~ (metadata (self (snd run)) <> metadata (self w1)).
Proof.
  cbv zeta.
  assert (self (snd (create_table (be_failing exn_forbidden 0) "t" [("a", Integer)] None
                       (snd (create_table (be_failing exn_forbidden 0) "t"
                               [("a", Integer)] None fresh)))) =
          self (snd (create_table (be_failing exn_forbidden 0) "t"
                       [("a", Integer)] None fresh))) as Hsame
    by (vm_compute; reflexivity).
  split; [reflexivity|].
  split; [exact Hsame|]. intros Hne. apply Hne. now rewrite Hsame.
Qed.


(** C10: every creation attempt of [create_table] hands [create_all] the
    facade's whole registry, with no target table: besides the table
    named in the call, each attempt covers every table registered before,
    by earlier [get_table] and [create_table] calls on the same facade. *)
Theorem create_all_covers_registry (be : backend) (w : world) (table_id : string)
    (schema : list (string * coltype)) (tpf : option string) :
  let name := dataset_id (self w) +:+ "." +:+ table_id in
  let run := create_table be table_id schema tpf w in
  let evs := new_events w (snd run) in
  submitted evs <> [] /\
  Forall (fun md =>
            md = define_table name schema (metadata (self w)) /\
            dom (metadata (self w)) ⊆ dom md /\
            forall other cols,
              other <> name ->
              metadata (self w) !! other = Some cols ->
              md !! other = Some cols)
         (submitted evs).
Proof.
  intros name run evs. subst run evs.
  destruct (create_table_run be table_id schema tpf w) as (evs & out & Hrun & Hr).
  rewrite Hrun. cbn [fst snd]. rewrite new_events_with_metadata.
  apply create_run_submitted in Hr. destruct Hr as (Hall & Hne & _).
  fold (qualified w table_id) in name. subst name.
  split; [apply Hne; reflexivity|].
  eapply Forall_impl; [exact Hall|]. intros md <-.
  split; [reflexivity|]. split.
  - unfold define_table. rewrite dom_insert_L. set_solver.
  - intros other cols Hother Hcols. now rewrite define_table_other.
Qed.

(** A table reflected by [get_table] and a table defined by an earlier
    [create_table] are both part of what a later [create_table] submits. *)
Example create_all_resubmits_earlier_tables :
  let w1 := snd (get_table be_ok "seen" fresh) in
  let w2 := snd (create_table be_ok "first" [("a", Integer)] None w1) in
  let run := create_table be_ok "second" [("b", String_)] None w2 in
  dom <$> submitted (new_events w2 (snd run)) = [{["d.seen"; "d.first"; "d.second"]}].
Proof. vm_compute. reflexivity. Qed.

(** ** [create_table]: the table definition *)

Lemma replace_column_fresh c cols :
  column_name c ∉ map column_name cols -> replace_column c cols = cols ++ [c].
Proof.
  induction cols as [|c' cols IH]; intros Hfresh; [reflexivity|].
  cbn in *. apply not_elem_of_cons in Hfresh as [Hne Hfresh].
  destruct (String.eqb (column_name c') (column_name c)) eqn:E.
  - apply String.eqb_eq in E. congruence.
  - now rewrite IH.
Qed.

Lemma foldl_replace_column_fresh schema :
  forall acc,
    NoDup (map fst schema) ->
    (forall n, n ∈ map fst schema -> n ∉ map column_name acc) ->
    foldl (fun cols '(n, ty) =>
             replace_column {| column_name := n; column_type := ty |} cols)
          acc schema = acc ++ map column_of schema.
Proof.
  induction schema as [|[n ty] schema IH]; intros acc Hnd Hfresh.
  - cbn. now rewrite app_nil_r.
  - cbn [foldl map fst] in *. apply NoDup_cons in Hnd as [Hn Hnd].
    rewrite replace_column_fresh by (cbn; apply Hfresh; left).
    rewrite IH.
    + rewrite <- app_assoc. reflexivity.
    + exact Hnd.
    + intros m Hm. rewrite map_app. cbn. intros Hin.
      apply elem_of_app in Hin as [Hin|Hin].
      * apply (Hfresh m); [now right | exact Hin].
      * apply list_elem_of_singleton in Hin. subst m. contradiction.
Qed.

Lemma define_table_fresh name schema md :
  NoDup (map fst schema) ->
  md !! name = None ->
  define_table name schema md !! name = Some (map column_of schema).
Proof.
  intros Hnd Hfree. unfold define_table. rewrite lookup_insert_eq, Hfree. cbn.
  rewrite foldl_replace_column_fresh; [reflexivity | exact Hnd |].
  intros n _ Hin. cbn in Hin. apply elem_of_nil in Hin. exact Hin.
Qed.

(** C6, as the code has it: when no table of the name [dataset.table_id] is
    registered in the facade's metadata yet, the table definition that
    [create_table(table_id, schema)] submits, for a schema of N distinct
    column names, is registered under [dataset_id], a dot and [table_id], and
    has exactly the N columns of the schema, in the order of the mapping. *)
Theorem create_table_definition (be : backend) (w : world) (table_id : string)
    (schema : list (string * coltype)) (tpf : option string) :
  NoDup (map fst schema) ->
  metadata (self w) !! (dataset_id (self w) +:+ "." +:+ table_id) = None ->
  submits_schema be w table_id schema tpf.
Proof.
  intros Hnd Hfree. unfold submits_schema.
  destruct (create_table_run be table_id schema tpf w) as (evs & out & Hrun & Hr).
  rewrite Hrun. cbn [fst snd]. rewrite new_events_with_metadata.
  apply create_run_submitted in Hr. destruct Hr as (Hall & Hne & _).
  split; [apply Hne; reflexivity|].
  eapply Forall_impl; [exact Hall|]. intros md <-.
  exists (map column_of schema).
  split; [now apply define_table_fresh|].
  split; [now rewrite length_map|].
  split; [|reflexivity].
  rewrite <- list_fmap_compose. reflexivity.
Qed.

Lemma create_table_definition_witness :
  NoDup (map fst [("a", Integer); ("b", String_)]) /\
  metadata (self fresh) !! (dataset_id (self fresh) +:+ "." +:+ "t") = None /\
  submits_schema be_ok fresh "t" [("a", Integer); ("b", String_)] None.
Proof.
  assert (NoDup (map fst [("a", Integer); ("b", String_)])) as Hnd.
  { cbn. apply (bool_decide_unpack _). reflexivity. }
  split; [exact Hnd|]. split; [reflexivity|].
  exact (create_table_definition be_ok fresh "t" [("a", Integer); ("b", String_)]
           None Hnd eq_refl).
Defined.

(** The scenario of the specification: on a new facade for dataset [d], the
    table [d.t] is submitted with the columns [a], [b], and the call
    returns [True]. *)
Example create_table_scenario :
  let run := create_table be_ok "t" [("a", Integer); ("b", String_)] None fresh in
  fst run = Returns true /\
  (fun md => md !! "d.t") <$> submitted (new_events fresh (snd run)) =
    [Some [{| column_name := "a"; column_type := Integer |};
           {| column_name := "b"; column_type := String_ |}]].
Proof. vm_compute. split; reflexivity. Qed.

(** Without that condition the property fails: on a facade that already
    holds the table, a second [create_table] of the same name, with a schema
    of one column, submits a definition of two columns. *)
Lemma create_table_twice_accumulates :
  let w1 := snd (create_table be_ok "t" [("a", Integer)] None fresh) in
  NoDup (map fst [("b", String_)]) /\
  (fun md => md !! "d.t") <$>
    submitted (new_events w1 (snd (create_table be_ok "t" [("b", String_)] None w1))) =
    [Some [{| column_name := "a"; column_type := Integer |};
           {| column_name := "b"; column_type := String_ |}]] /\
  ~ submits_schema be_ok w1 "t" [("b", String_)] None.
Proof.
  cbv zeta. split; [cbn; apply NoDup_singleton|].
  split; [vm_compute; reflexivity|].
  intros [_ H]. vm_compute in H.
  apply Forall_cons in H as [(cols & Hcols & Hlen & _) _].
  injection Hcols as <-. discriminate Hlen.
Qed.

(** ** [delete_table] under a quota that is always exceeded *)

Lemma drop_block_quota be h stmt :
  always_quota_exceeded be ->
  exists e,
    drop_block be h stmt =
      (Some e, [EvConnect None; EvExecute stmt (Some e); EvClose]) /\
    PyStr.contains quota_marker (exn_str e) = true.
Proof.
  intros Hq. unfold drop_block.
  destruct (Hq h stmt) as [Hc _]. rewrite Hc.
  destruct (Hq (h ++ [EvConnect None]) stmt) as [_ (e & He & Hm)]. rewrite He.
  eauto.
Qed.

Lemma delete_run_quota be name n h evs out :
  delete_run be name n h evs out ->
  always_quota_exceeded be ->
  (0 <= n <= max_retries)%Z ->
  out = Returns tt /\
  retry_view evs = backoff_view delete_delay n (Z.to_nat (max_retries - n)) /\
  draws evs = [] /\
  executions evs =
    replicate (Z.to_nat (max_retries - n)) (drop_statement name) /\
  last evs = Some (EvDebug LogDeleteExhausted).
Proof.
  intros Hrun Hq.
  induction Hrun as [n h Hn | n h Hn Hc | n h e Hn Hc Hm
                    | n h e evs out Hn Hc Hm round Hrun IH]; intros Hrange.
  - replace (max_retries - n)%Z with 0%Z by lia. cbn. auto.
  - destruct (drop_block_quota be h (drop_statement name) Hq) as (e & He & _).
    rewrite He in Hc. discriminate Hc.
  - destruct (drop_block_quota be h (drop_statement name) Hq) as (e' & He & Hm').
    rewrite He in Hc. cbn in Hc. injection Hc as ->. congruence.
  - destruct IH as (-> & Hview & Hdraws & Hexec & Hlast); [lia|].
    destruct (drop_block_quota be h (drop_statement name) Hq) as (e' & He & _).
    subst round. rewrite He. cbn [snd].
    unfold retry_view, draws, executions in *. rewrite !omap_app. cbn.
    rewrite Hview, Hdraws, Hexec.
    replace (Z.to_nat (max_retries - n))
      with (S (Z.to_nat (max_retries - (n + 1)))) by lia.
    split; [reflexivity|]. split; [reflexivity|]. split; [reflexivity|].
    split; [reflexivity|].
    destruct evs as [|ev evs]; [discriminate Hlast|]. exact Hlast.
Qed.

(** The delays of [delete_table] are [0.1 * 2^n] for the literal [0.1]:
    the mantissa of the literal with the exponent raised by [n].  The
    products are exact. *)
Lemma delete_delay_exact :
  Forall (fun n =>
            delete_delay n = tenth_times_pow2 n /\
            delete_delay n = S754_finite false 7205759403792794 (n - 56))
         [0; 1; 2; 3; 4]%Z.
Proof. repeat constructor. Qed.

(** C2: when every drop attempt of [delete_table] fails with an error whose
    message contains the quota substring, the call makes exactly 5 drop
    attempts, sleeps after attempt n (n = 0..4) for exactly [0.1 * 2^n]
    seconds, draws no random number, and then returns normally: it raises
    nothing and returns no failure indicator. *)
Theorem delete_table_quota_exhausted (be : backend) (w : world) (table_id : string) :
  always_quota_exceeded be ->
  let run := delete_table be table_id w in
  let evs := new_events w (snd run) in
  fst run = Returns tt /\
  retry_view evs =
    [Attempt; Sleep (tenth_times_pow2 0);
     Attempt; Sleep (tenth_times_pow2 1);
     Attempt; Sleep (tenth_times_pow2 2);
     Attempt; Sleep (tenth_times_pow2 3);
     Attempt; Sleep (tenth_times_pow2 4)] /\
  executions evs = replicate 5 (drop_statement (qualified w table_id)) /\
  draws evs = [].
Proof.
  intros Hq run evs. subst run evs.
  destruct (delete_table_run be table_id w) as (evs & out & Hrun & Hr).
  rewrite Hrun. cbn [fst snd]. rewrite new_events_with_history.
  pose proof (delete_run_quota _ _ _ _ _ _ Hr Hq)
    as (-> & Hview & Hdraws & Hexec & _); [unfold max_retries; lia|].
  split; [reflexivity|]. split; [exact Hview|]. split; [exact Hexec|exact Hdraws].
Qed.

Lemma be_failing_quota_exceeded bits :
  always_quota_exceeded (be_failing exn_quota bits).
Proof. intros h stmt. split; [reflexivity|]. exists exn_quota. split; reflexivity. Qed.

Lemma delete_table_quota_exhausted_witness :
  always_quota_exceeded (be_failing exn_quota 0) /\
  fst (delete_table (be_failing exn_quota 0) "t" fresh) = Returns tt /\
  sleeps (new_events fresh (snd (delete_table (be_failing exn_quota 0) "t" fresh))) =
    map tenth_times_pow2 [0; 1; 2; 3; 4]%Z.
Proof.
  split; [apply be_failing_quota_exceeded|].
  destruct (delete_table_quota_exhausted (be_failing exn_quota 0) fresh "t"
              (be_failing_quota_exceeded 0)) as (Hout & _).
  split; [exact Hout | reflexivity].
Defined.

(** ** The retry state machine *)

Lemma state_at_next n :
  (0 <= n < max_retries)%Z ->
  retry_next (Attempting n) OnTransientError = Some (state_at (n + 1)).
Proof.
  intros Hn. unfold retry_next, state_at.
  destruct (Z.ltb_spec n max_retries); [reflexivity | lia].
Qed.

Lemma create_run_machine be name md n h evs out :
  create_run be name md n h evs out ->
  (0 <= n)%Z ->
  exists s,
    run_machine retry_next (state_at n) (create_causes evs) = Some s /\
    terminal s = true /\
    create_ends s out /\
    length (sleeps evs) = transient_count (create_causes evs).
Proof.
  induction 1 as [n h Hn | n h Hn Hc | n h e Hn Hc Hm
                 | n h e evs out Hn Hc Hm round Hrun IH]; intros Hpos.
  - exists ExhaustedRetries. unfold state_at.
    destruct (Z.ltb_spec n max_retries); [lia|]. cbn. auto.
  - exists Succeeded. unfold state_at.
    destruct (Z.ltb_spec n max_retries); [|lia]. cbn.
    destruct (Z.ltb_spec n max_retries); [|lia]. auto.
  - exists FatalFailure. unfold state_at.
    destruct (Z.ltb_spec n max_retries); [|lia]. cbn. rewrite Hm. cbn.
    destruct (Z.ltb_spec n max_retries); [|lia]. eauto.
  - destruct IH as (s & Hs & Hterm & Hends & Hsleeps); [lia|].
    exists s. subst round. unfold create_causes, sleeps in *.
    rewrite !omap_app. cbn. rewrite Hm.
    replace (state_at n) with (Attempting n)
      by (unfold state_at; destruct (Z.ltb_spec n max_retries); [reflexivity|lia]).
    cbn [run_machine]. rewrite state_at_next by lia.
    unfold transient_count in *. cbn. rewrite Hsleeps. auto.
Qed.

Lemma drop_block_causes be h stmt :
  delete_causes (snd (drop_block be h stmt)) =
    [classify quota_marker (fst (drop_block be h stmt))] /\
  sleeps (snd (drop_block be h stmt)) = [].
Proof.
  unfold drop_block.
  destruct (be_connect be h) as [e|]; [split; reflexivity|].
  destruct (be_execute be (h ++ [EvConnect None]) stmt); split; reflexivity.
Qed.

Lemma delete_run_machine be name n h evs out :
  delete_run be name n h evs out ->
  (0 <= n)%Z ->
  exists s,
    run_machine retry_next (state_at n) (delete_causes evs) = Some s /\
    terminal s = true /\
    delete_ends s out /\
    length (sleeps evs) = transient_count (delete_causes evs).
Proof.
  induction 1 as [n h Hn | n h Hn Hc | n h e Hn Hc Hm
                 | n h e evs out Hn Hc Hm round Hrun IH]; intros Hpos.
  - exists ExhaustedRetries. unfold state_at.
    destruct (Z.ltb_spec n max_retries); [lia|]. cbn. auto.
  - exists Succeeded. unfold state_at.
    destruct (Z.ltb_spec n max_retries); [|lia].
    destruct (drop_block_causes be h (drop_statement name)) as [Hcs Hsl].
    unfold delete_causes, sleeps in *. rewrite !omap_app, Hcs, Hsl, Hc. cbn.
    destruct (Z.ltb_spec n max_retries); [|lia]. auto.
  - exists FatalFailure. unfold state_at.
    destruct (Z.ltb_spec n max_retries); [|lia].
    destruct (drop_block_causes be h (drop_statement name)) as [Hcs Hsl].
    rewrite Hcs, Hsl, Hc. cbn. rewrite Hm. cbn.
    destruct (Z.ltb_spec n max_retries); [|lia]. eauto.
  - destruct IH as (s & Hs & Hterm & Hends & Hsleeps); [lia|].
    exists s. subst round.
    destruct (drop_block_causes be h (drop_statement name)) as [Hcs Hsl].
    unfold delete_round, delete_causes, sleeps in *.
    rewrite !omap_app, Hcs, Hsl, Hc. cbn. rewrite Hm.
    replace (state_at n) with (Attempting n)
      by (unfold state_at; destruct (Z.ltb_spec n max_retries); [reflexivity|lia]).
    cbn [run_machine]. rewrite state_at_next by lia.
    unfold transient_count in *. cbn. rewrite Hsleeps. auto.
Qed.

(** The runs of the machine to a terminal state: transient errors up to
    counter 4, and then a success or a fatal error, or the transient error
    at counter 4. *)
Lemma retry_machine_runs_from cs :
  forall n s,
    (0 <= n <= max_retries)%Z ->
    run_machine retry_next (state_at n) cs = Some s ->
    terminal s = true ->
    exists j : nat,
      (n + Z.of_nat j <= max_retries)%Z /\
      ((n + Z.of_nat j < max_retries)%Z /\
       cs = replicate j OnTransientError ++ [OnSuccess] /\ s = Succeeded \/
       (n + Z.of_nat j < max_retries)%Z /\
       cs = replicate j OnTransientError ++ [OnFatalError] /\ s = FatalFailure \/
       (n + Z.of_nat j = max_retries)%Z /\
       cs = replicate j OnTransientError /\ s = ExhaustedRetries).
Proof.
  induction cs as [|c cs IH]; intros n s Hn Hrun Hterm.
  - cbn in Hrun. injection Hrun as <-. unfold state_at in *.
    destruct (Z.ltb_spec n max_retries); [discriminate Hterm|].
    exists 0%nat. split; [lia|]. right. right. split; [lia|]. auto.
  - unfold state_at in Hrun.
    destruct (Z.ltb_spec n max_retries) as [Hlt|Hge]; [|destruct c; discriminate Hrun].
    cbn [run_machine] in Hrun.
    destruct c; cbn [retry_next] in Hrun;
      (destruct (Z.ltb_spec n max_retries); [|lia]).
    + destruct cs as [|c cs]; [|destruct c; discriminate Hrun].
      injection Hrun as <-. exists 0%nat. split; [lia|]. left.
      split; [lia|]. auto.
    + destruct cs as [|c cs]; [|destruct c; discriminate Hrun].
      injection Hrun as <-. exists 0%nat. split; [lia|]. right. left.
      split; [lia|]. auto.
    + fold (state_at (n + 1)) in Hrun.
      destruct (IH (n + 1)%Z s) as (j & Hj & Hcases); [lia | exact Hrun | exact Hterm |].
      exists (S j). split; [lia|].
      destruct Hcases as [(H1 & -> & ->) | [(H1 & -> & ->) | (H1 & -> & ->)]].
      * left. split; [lia|]. auto.
      * right. left. split; [lia|]. auto.
      * right. right. split; [lia|]. auto.
Qed.

(** Each of these runs of the machine is a run of both loops, on the backend
    that answers the attempts as the run says. *)
Lemma retry_machine_runs_realised cs s :
  run_machine retry_next (Attempting 0) cs = Some s ->
  terminal s = true ->
  (create_causes
     (new_events fresh
        (snd (create_table (be_scripted (map answer_of cs)) "t" [] None fresh))) = cs /\
   create_ends s
     (fst (create_table (be_scripted (map answer_of cs)) "t" [] None fresh))) /\
  (delete_causes
     (new_events fresh
        (snd (delete_table (be_scripted (map answer_of cs)) "t" fresh))) = cs /\
   delete_ends s (fst (delete_table (be_scripted (map answer_of cs)) "t" fresh))).
Proof.
  intros Hrun Hterm.
  destruct (retry_machine_runs_from cs 0%Z s) as (j & Hj & Hcases);
    [unfold max_retries; lia | exact Hrun | exact Hterm |].
  unfold max_retries in *.
  destruct j as [|[|[|[|[|[|j]]]]]];
    destruct Hcases as [(H1 & -> & ->) | [(H1 & -> & ->) | (H1 & -> & ->)]];
    try lia; vm_compute; repeat split; eauto.
Qed.

(** C7, as the code has it: both retry loops implement this machine, and no
    other transition occurs.  From [Attempting(n)], n from 0 to 4, a success
    leads to [Succeeded], a non-matching error to [FatalFailure] (re-raised),
    and a matching transient error leads, after a backoff sleep, to
    [Attempting(n+1)] while n < 4 and to [ExhaustedRetries] from
    [Attempting(4)] ([False] for create, a silent return for delete).  No
    attempt is made at counter 5.  Every call follows the machine, with one
    sleep per transient error, and every run of the machine is the run of
    some call. *)
Theorem retry_loops_follow_machine :
  (forall be w table_id schema tpf,
      let run := create_table be table_id schema tpf w in
      let evs := new_events w (snd run) in
      follows retry_next create_ends (create_causes evs) (fst run) /\
      length (sleeps evs) = transient_count (create_causes evs)) /\
  (forall be w table_id,
      let run := delete_table be table_id w in
      let evs := new_events w (snd run) in
      follows retry_next delete_ends (delete_causes evs) (fst run) /\
      length (sleeps evs) = transient_count (delete_causes evs)) /\
  (forall cs s,
      run_machine retry_next (Attempting 0) cs = Some s ->
      terminal s = true ->
      exists be,
        (let run := create_table be "t" [] None fresh in
         create_causes (new_events fresh (snd run)) = cs /\
         create_ends s (fst run)) /\
        (let run := delete_table be "t" fresh in
         delete_causes (new_events fresh (snd run)) = cs /\
         delete_ends s (fst run))).
Proof.
  split; [|split].
  - intros be w table_id schema tpf run evs. subst run evs.
    destruct (create_table_run be table_id schema tpf w) as (evs & out & Hrun & Hr).
    rewrite Hrun. cbn [fst snd]. rewrite new_events_with_metadata.
    destruct (create_run_machine _ _ _ _ _ _ _ Hr) as (s & Hs & Hterm & Hends & Hsl);
      [lia|].
    split; [exists s; auto | exact Hsl].
  - intros be w table_id run evs. subst run evs.
    destruct (delete_table_run be table_id w) as (evs & out & Hrun & Hr).
    rewrite Hrun. cbn [fst snd]. rewrite new_events_with_history.
    destruct (delete_run_machine _ _ _ _ _ _ Hr) as (s & Hs & Hterm & Hends & Hsl);
      [lia|].
    split; [exists s; auto | exact Hsl].
  - intros cs s Hrun Hterm. exists (be_scripted (map answer_of cs)).
    exact (retry_machine_runs_realised cs s Hrun Hterm).
Qed.

(** Neither loop runs out of the fuel it is given. *)
Lemma retry_loops_return be w table_id schema tpf :
  fst (create_table be table_id schema tpf w) <> OutOfFuel /\
  fst (delete_table be table_id w) <> OutOfFuel.
Proof.
  split.
  - destruct (create_table_run be table_id schema tpf w) as (evs & out & Hrun & Hr).
    rewrite Hrun. cbn [fst].
    apply create_run_submitted in Hr as (_ & _ & [-> | [-> | [e ->]]]);
      discriminate.
  - destruct (delete_table_run be table_id w) as (evs & out & Hrun & Hr).
    rewrite Hrun. cbn [fst].
    destruct (delete_run_machine _ _ _ _ _ _ Hr) as (s & _ & _ & Hends & _); [lia|].
    destruct s; cbn in Hends; try contradiction; try (rewrite Hends; discriminate).
    destruct Hends as [e ->]. discriminate.
Qed.

Lemma retry_loops_follow_machine_witness :
  run_machine retry_next (Attempting 0)
    [OnTransientError; OnTransientError; OnSuccess] = Some Succeeded /\
  exists be,
    create_causes (new_events fresh (snd (create_table be "t" [] None fresh))) =
      [OnTransientError; OnTransientError; OnSuccess] /\
    fst (create_table be "t" [] None fresh) = Returns true.
Proof.
  split; [reflexivity|].
  destruct retry_loops_follow_machine as (_ & _ & Hall).
  destruct (Hall [OnTransientError; OnTransientError; OnSuccess] Succeeded
              eq_refl eq_refl) as (be & (Hcs & Hends) & _).
  exists be. split; [exact Hcs | exact Hends].
Defined.

(** The machine in the words of the specification is not the machine of the
    loops: after five transient errors [create_table] has returned [False],
    while that machine is in [Attempting(5)], waiting for a sixth attempt. *)
Lemma spec_machine_off_by_one :
  let run := create_table (be_failing exn_rate_limit 0) "t" [] None fresh in
  let cs := create_causes (new_events fresh (snd run)) in
  cs = replicate 5 OnTransientError /\
  fst run = Returns false /\
  run_machine spec_next (Attempting 0) cs = Some (Attempting 5) /\
  ~ follows spec_next create_ends cs (fst run).
Proof.
  cbv zeta.
  assert (create_causes
            (new_events fresh
               (snd (create_table (be_failing exn_rate_limit 0) "t" [] None fresh))) =
          replicate 5 OnTransientError) as Hcs by (vm_compute; reflexivity).
  rewrite Hcs.
  split; [reflexivity|]. split; [vm_compute; reflexivity|].
  split; [reflexivity|].
  intros (s & Hs & Hterm & _). cbn in Hs. injection Hs as <-. discriminate Hterm.
Qed.

(** ** [create_table] under a rate limit that is always hit *)

Section Create_delay.

Local Open Scope Z_scope.

Lemma pos_le_of_Z p q : Z.pos p <= Z.pos q -> (p <= q)%positive.
Proof. intros H. exact H. Qed.

Lemma of_int_pow2 n :
  0 <= n <= 4 ->
  PyFloat.of_int (2 ^ n) = S754_finite false (2 ^ 52)%positive (n - 52).
Proof.
  intros Hn.
  assert (n = 0 \/ n = 1 \/ n = 2 \/ n = 3 \/ n = 4) as Hcases by lia.
  destruct Hcases as [-> | [-> | [-> | [-> | ->]]]]; reflexivity.
Qed.

Lemma of_int_pow2_succ n :
  1 <= n <= 4 ->
  PyFloat.of_int (2 ^ n + 1) =
  S754_finite false (Z.to_pos (2 ^ 52 + 2 ^ (52 - n))) (n - 52).
Proof.
  intros Hn.
  assert (n = 1 \/ n = 2 \/ n = 3 \/ n = 4) as Hcases by lia.
  destruct Hcases as [-> | [-> | [-> | ->]]]; reflexivity.
Qed.

(** A nonzero draw is a binary64 number in [[2^-53, 1)]. *)
Lemma random_of_bits_normal p :
  Z.pos p < 2 ^ 53 ->
  exists my ey,
    PyFloat.random_of_bits (Z.pos p) = S754_finite false my ey /\
    Z.pos (digits2_pos my) = 53 /\ -105 <= ey <= -53.
Proof.
  intros Hp. unfold PyFloat.random_of_bits, PyFloat.prec, PyFloat.emax.
  rewrite Z.mod_small by lia. cbn [binary_normalize].
  pose proof (digits2_pos_bounds p) as [Hlo Hhi].
  assert (Z.pos (digits2_pos p) <= 53) as Hd.
  { destruct (Z.leb_spec (Z.pos (digits2_pos p)) 53) as [H|H]; [exact H|].
    assert (2 ^ 53 <= 2 ^ (Z.pos (digits2_pos p) - 1))
      by (apply Z.pow_le_mono_r; lia).
    lia. }
  rewrite binary_round_small by lia.
  eexists _, _. split; [reflexivity|]. split; [|lia].
  rewrite digits2_pos_shifted by lia. lia.
Qed.

(** The rounded sum [2^n + u] lies between [2^n] and [2^n + 1], ends
    included, for every number [u] that [random.uniform(0, 1)] returns. *)
Lemma create_delay_within n bits :
  0 <= n <= 4 -> 0 <= bits < 2 ^ 53 ->
  within_closed n (create_delay n bits) = true.
Proof.
  intros Hn Hbits. destruct bits as [|p|p]; [ | | lia].
  - assert (n = 0 \/ n = 1 \/ n = 2 \/ n = 3 \/ n = 4) as Hcases by lia.
    destruct Hcases as [-> | [-> | [-> | [-> | ->]]]]; reflexivity.
  - destruct (random_of_bits_normal p) as (my & ey & Hrand & Hd & He); [lia|].
    unfold create_delay. rewrite Hrand.
    change (PyFloat.of_int (1 - 0)) with (S754_finite false (2 ^ 52)%positive (-52)).
    unfold PyFloat.mul, PyFloat.prec, PyFloat.emax.
    rewrite SFmul_one by lia.
    change (PyFloat.of_int 0) with (S754_zero false).
    unfold PyFloat.add at 2. cbn [SFadd].
    unfold PyFloat.add, PyFloat.prec, PyFloat.emax.
    rewrite of_int_pow2 by lia.
    destruct (SFadd_pow2_below_one n my ey) as (q' & Hq' & Hsum); [lia | exact Hd | lia |].
    rewrite Hsum. clear Hsum Hrand.
    unfold within_closed, PyFloat.leb. rewrite of_int_pow2 by lia.
    assert (0 < 2 ^ (52 - n)) by (apply Z.pow_pos_nonneg; lia).
    apply andb_true_intro. split.
    + destruct (Z.eqb_spec q' (2 ^ 53)).
      * apply SFleb_lower_exponent. lia.
      * apply SFleb_same_exponent. apply pos_le_of_Z.
        rewrite Z2Pos.id by lia. change (Z.pos (2 ^ 52)) with (2 ^ 52). lia.
    + destruct (Z.eqb_spec n 0) as [->|Hn0].
      * change (PyFloat.of_int (2 ^ 0 + 1))
          with (S754_finite false (2 ^ 52)%positive (-51)).
        destruct (Z.eqb_spec q' (2 ^ 53)).
        -- apply SFleb_same_exponent. lia.
        -- apply SFleb_lower_exponent. lia.
      * rewrite of_int_pow2_succ by lia.
        assert (2 ^ (52 - n) <= 2 ^ 51) by (apply Z.pow_le_mono_r; lia).
        change (2 ^ 53) with (2 ^ 52 + 2 ^ 52) in *.
        change (2 ^ 52) with (2 ^ 51 + 2 ^ 51) in *.
        destruct (Z.eqb_spec q' (2 ^ 51 + 2 ^ 51 + (2 ^ 51 + 2 ^ 51))); [lia|].
        apply SFleb_same_exponent. apply pos_le_of_Z.
        rewrite !Z2Pos.id by lia. lia.
Qed.

End Create_delay.

Lemma create_run_rate_limited be name md n h evs out :
  create_run be name md n h evs out ->
  always_rate_limited be ->
  (0 <= n <= max_retries)%Z ->
  out = Returns false /\
  exists bits,
    length bits = Z.to_nat (max_retries - n) /\
    Forall (fun b => 0 <= b < 2 ^ 53)%Z bits /\
    retry_view evs = jitter_view n bits /\
    draws evs = bits /\
    length (submitted evs) = length bits.
Proof.
  intros Hrun Hrate.
  induction Hrun as [n h Hn | n h Hn Hc | n h e Hn Hc Hm
                    | n h e evs out Hn Hc Hm round Hrun IH]; intros Hrange.
  - split; [reflexivity|]. exists []. replace (max_retries - n)%Z with 0%Z by lia.
    repeat split. constructor.
  - destruct (Hrate h md) as (e & He & _). congruence.
  - destruct (Hrate h md) as (e' & He & Hm'). congruence.
  - destruct IH as (-> & bits & Hlen & Hall & Hview & Hdraws & Hsub); [lia|].
    split; [reflexivity|].
    exists (drawn_bits be (h ++ [EvCreateAll md (Some e)]) :: bits).
    subst round. unfold retry_view, draws, submitted, create_round in *.
    rewrite !omap_app. cbn. rewrite Hview, Hdraws, Hsub.
    split; [rewrite Hlen; lia|]. split; [|repeat split; reflexivity].
    constructor; [|exact Hall].
    unfold drawn_bits. apply Z.mod_pos_bound. reflexivity.
Qed.

(** C1, as the code has it: when every creation attempt of [create_table]
    fails with an error whose message contains the rate-limit substring, the
    call makes exactly 5 creation attempts, sleeps after attempt n
    (n = 0..4) for a duration in the closed interval from [2^n] to
    [2^n + 1] seconds, and then returns [False] without raising. *)
Theorem create_table_rate_limited (be : backend) (w : world) (table_id : string)
    (schema : list (string * coltype)) (tpf : option string) :
  always_rate_limited be ->
  let run := create_table be table_id schema tpf w in
  let evs := new_events w (snd run) in
  fst run = Returns false /\
  five_backoffs within_closed (retry_view evs) /\
  length (submitted evs) = 5%nat /\
  length (draws evs) = 5%nat.
Proof.
  intros Hrate run evs. subst run evs.
  destruct (create_table_run be table_id schema tpf w) as (evs & out & Hrun & Hr).
  rewrite Hrun. cbn [fst snd]. rewrite new_events_with_metadata.
  destruct (create_run_rate_limited _ _ _ _ _ _ _ Hr Hrate)
    as (-> & bits & Hlen & Hall & Hview & Hdraws & Hsub);
    [unfold max_retries; lia|].
  change (Z.to_nat (max_retries - 0)) with 5%nat in Hlen.
  destruct bits as [|b0 [|b1 [|b2 [|b3 [|b4 [|b5 bits]]]]]]; try discriminate Hlen.
  repeat match goal with
         | H : Forall _ (_ :: _) |- _ => apply Forall_cons in H as [? H]
         end.
  split; [reflexivity|]. split.
  - unfold five_backoffs. rewrite Hview.
    exists (create_delay 0 b0), (create_delay 1 b1), (create_delay 2 b2),
      (create_delay 3 b3), (create_delay 4 b4).
    split; [reflexivity|].
    repeat split; apply create_delay_within; lia.
  - rewrite Hsub, Hdraws. split; reflexivity.
Qed.

Lemma be_failing_rate_limited bits :
  always_rate_limited (be_failing exn_rate_limit bits).
Proof. intros h md. exists exn_rate_limit. split; reflexivity. Qed.

Lemma create_table_rate_limited_witness :
  always_rate_limited (be_failing exn_rate_limit 0) /\
  fst (create_table (be_failing exn_rate_limit 0) "t" [("a", Integer)] None fresh) =
    Returns false /\
  five_backoffs within_closed
    (retry_view
       (new_events fresh
          (snd (create_table (be_failing exn_rate_limit 0) "t" [("a", Integer)]
                  None fresh)))).
Proof.
  split; [apply be_failing_rate_limited|].
  destruct (create_table_rate_limited (be_failing exn_rate_limit 0) fresh "t"
              [("a", Integer)] None (be_failing_rate_limited 0))
    as (Hout & Hview & _).
  split; [exact Hout | exact Hview].
Defined.

(** With the interval open at [2^n + 1] the property fails when the
    generator draws its largest number, [1 - 2^-53]: the sums
    [2^n + (1 - 2^-53)] are not binary64 numbers and round to [2^n + 1], so
    the sleeps are of 2, 3, 5, 9 and 17 seconds. *)
Lemma create_delay_reaches_upper_end :
  let be := be_failing exn_rate_limit (2 ^ 53 - 1) in
  always_rate_limited be /\
  sleeps (new_events fresh (snd (create_table be "t" [] None fresh))) =
    map PyFloat.of_int [2; 3; 5; 9; 17]%Z /\
  within_half_open 0 (PyFloat.of_int 2) = false /\
  ~ exhausts_with_backoff within_half_open be fresh "t" [] None.
Proof.
  cbv zeta. split; [apply be_failing_rate_limited|].
  split; [vm_compute; reflexivity|]. split; [reflexivity|].
  intros (_ & d0 & d1 & d2 & d3 & d4 & Hview & Hd0 & _).
  vm_compute in Hview. injection Hview as <- _ _ _ _.
  vm_compute in Hd0. discriminate Hd0.
Qed.

(** * More properties of the methods *)

(** ** The [in] operator on strings *)

Lemma prefix_spec a b :
  String.prefix a b = true <-> exists post, b = a +:+ post.
Proof.
  revert b. induction a as [|x a IH]; intros b.
  - split; [intros _; exists b; reflexivity | intros _; destruct b; reflexivity].
  - destruct b as [|y b]; cbn.
    + split; [discriminate | intros [post H]; discriminate H].
    + destruct (Ascii.ascii_dec x y) as [->|Hne].
      * rewrite IH. split; intros [post H]; exists post.
        -- now rewrite H.
        -- now injection H.
      * split; [discriminate|]. intros [post H]. injection H as H1 H2. congruence.
Qed.

Lemma contains_spec needle hay :
  PyStr.contains needle hay = true <->
  exists pre post, hay = pre +:+ needle +:+ post.
Proof.
  induction hay as [|x hay IH]; cbn [PyStr.contains].
  - destruct (String.prefix needle "") eqn:E.
    + apply prefix_spec in E as [post E]. split; [|reflexivity].
      intros _. exists "", post. exact E.
    + split; [discriminate|]. intros (pre & post & H).
      destruct pre as [|y pre]; [|discriminate H]. cbn in H.
      assert (String.prefix needle "" = true) as E' by (apply prefix_spec; eauto).
      congruence.
  - destruct (String.prefix needle (String x hay)) eqn:E.
    + apply prefix_spec in E as [post E]. split; [|reflexivity].
      intros _. exists "", post. exact E.
    + rewrite IH. split.
      * intros (pre & post & H). exists (String x pre), post. cbn. now rewrite H.
      * intros (pre & post & H). destruct pre as [|y pre].
        -- cbn in H.
           assert (String.prefix needle (String x hay) = true) as E'
             by (apply prefix_spec; eauto).
           congruence.
        -- cbn in H. injection H as _ H. eauto.
Qed.

(** X1: an error met by an attempt is retried exactly when its message has
    the operation's marker somewhere inside it, as written, and is raised
    again as it is otherwise: for [create_table] the attempt goes on to the
    next counter iff [str(e)] is [pre + "Job exceeded rate limits" + post],
    for [delete_table] iff it is
    [pre + "exceeded quota for table update operations" + post]. *)
Theorem retried_iff_marker_inside (be : backend) (name : string) (n : Z)
    (w : world) (e : exn) :
  (be_create_all be (history w) (metadata (self w)) = Some e ->
   ((exists pre post, exn_str e = pre +:+ "Job exceeded rate limits" +:+ post) <->
    fst (create_attempt be name n w) = Returns (Continue (n + 1)%Z)) /\
   ((~ exists pre post, exn_str e = pre +:+ "Job exceeded rate limits" +:+ post) <->
    fst (create_attempt be name n w) = Raises e)) /\
  (fst (drop_block be (history w) (drop_statement name)) = Some e ->
   ((exists pre post,
        exn_str e = pre +:+ "exceeded quota for table update operations" +:+ post) <->
    fst (delete_attempt be name (drop_statement name) n w) =
      Returns (Continue (n + 1)%Z)) /\
   ((~ exists pre post,
        exn_str e = pre +:+ "exceeded quota for table update operations" +:+ post) <->
    fst (delete_attempt be name (drop_statement name) n w) = Raises e)).
Proof.
  split.
  - intros He. rewrite <- !contains_spec. fold rate_limit_marker.
    destruct (PyStr.contains rate_limit_marker (exn_str e)) eqn:Hm.
    + rewrite (create_attempt_transient be name n w e He Hm). cbn [fst].
      split; split; try reflexivity; try discriminate. intros H. now destruct H.
    + rewrite (create_attempt_fatal be name n w e He Hm). cbn [fst].
      split; split; try reflexivity; try discriminate.
  - intros He. rewrite <- !contains_spec. fold quota_marker.
    destruct (PyStr.contains quota_marker (exn_str e)) eqn:Hm.
    + rewrite (delete_attempt_transient be name _ n w e He Hm). cbn [fst].
      split; split; try reflexivity; try discriminate. intros H. now destruct H.
    + rewrite (delete_attempt_fatal be name _ n w e He Hm). cbn [fst].
      split; split; try reflexivity; try discriminate.
Qed.

Lemma retried_iff_marker_inside_witness :
  fst (create_attempt (be_failing exn_rate_limit 0) "d.t" 0 fresh) =
    Returns (Continue 1%Z) /\
  fst (delete_attempt (be_failing exn_forbidden 0) "d.t" (drop_statement "d.t") 0 fresh) =
    Raises exn_forbidden.
Proof.
  destruct (retried_iff_marker_inside (be_failing exn_rate_limit 0) "d.t" 0 fresh
              exn_rate_limit) as [Hcreate _].
  destruct (retried_iff_marker_inside (be_failing exn_forbidden 0) "d.t" 0 fresh
              exn_forbidden) as [_ Hdelete].
  split.
  - apply (Hcreate eq_refl).
    exists "403 Exceeded rate limits: ", ": too many table update operations".
    reflexivity.
  - apply (Hdelete eq_refl). intros H.
    apply contains_spec in H. discriminate H.
Defined.

(** The match is case-sensitive: the same words in another case are a
    fatal error. *)
Example marker_is_case_sensitive :
  PyStr.contains "Job exceeded rate limits" "403 job exceeded rate limits" = false /\
  PyStr.contains "Job exceeded rate limits" "403 Exceeded rate limits" = false.
Proof. split; reflexivity. Qed.

(** ** What the methods do to the facade *)

Lemma foldl_append_column_name t cols :
  table_name (foldl append_column t cols) = table_name t.
Proof. revert t. induction cols as [|c cols IH]; intros t; cbn; [|rewrite IH]; reflexivity. Qed.

Lemma get_table_registered be table_id cols w :
  metadata (self w) !! qualified w table_id = Some cols ->
  get_table be table_id w =
  (Returns (Some {| table_name := qualified w table_id; table_columns := cols |}), w).
Proof.
  intros H. unfold get_table. run_monad. fold (qualified w table_id).
  now rewrite (Table_autoload_registered be _ cols w H).
Qed.

Lemma get_table_reflects be table_id cols w :
  metadata (self w) !! qualified w table_id = None ->
  be_autoload be (history w) (qualified w table_id) = inr cols ->
  get_table be table_id w =
  (Returns (Some (foldl append_column
                    {| table_name := qualified w table_id; table_columns := [] |}
                    cols)),
   with_history
     (with_metadata w
        (<[qualified w table_id :=
             table_columns
               (foldl append_column
                  {| table_name := qualified w table_id; table_columns := [] |}
                  cols)]> (metadata (self w))))
     [EvAutoload (qualified w table_id) None]).
Proof.
  intros H Hc. unfold get_table, Table_autoload. run_monad.
  fold (qualified w table_id). rewrite H, Hc.
  unfold put_metadata. run_monad. reflexivity.
Qed.

Lemma delete_table_self be table_id w :
  self (snd (delete_table be table_id w)) = self w.
Proof.
  destruct (delete_table_run be table_id w) as (evs & out & Hrun & _).
  now rewrite Hrun.
Qed.

Lemma execute_query_self be query w :
  self (snd (execute_query be query w)) = self w.
Proof.
  unfold execute_query, with_connection, engine_connect, connection_execute,
    result_fetchall.
  run_monad.
  destruct (be_connect be (history w)); run_monad; [reflexivity|].
  destruct (be_execute be (history w ++ [EvConnect None]) query); run_monad;
    [reflexivity|].
  destruct (be_fetchall be ((history w ++ [EvConnect None]) ++ [EvExecute query None]));
    reflexivity.
Qed.

Lemma create_table_self be table_id schema tpf w :
  self (snd (create_table be table_id schema tpf w)) =
  set_metadata (define_table (qualified w table_id) schema (metadata (self w)))
    (self w).
Proof.
  destruct (create_table_run be table_id schema tpf w) as (evs & out & Hrun & _).
  now rewrite Hrun.
Qed.

(** X3: no method ever takes a table out of the facade's registry, and the
    project, the dataset and the engine of a facade never change.
    [execute_query] and [delete_table] leave the whole facade as it was,
    [delete_table] included when the drop succeeds; [get_table] leaves
    every registered definition as it was; [create_table] keeps every
    registered name. *)
Theorem registry_never_shrinks (be : backend) (w : world) :
  (forall query, self (snd (execute_query be query w)) = self w) /\
  (forall table_id, self (snd (delete_table be table_id w)) = self w) /\
  (forall table_id,
      let o := self (snd (get_table be table_id w)) in
      project_id o = project_id (self w) /\
      dataset_id o = dataset_id (self w) /\
      engine o = engine (self w) /\
      forall name cols,
        metadata (self w) !! name = Some cols -> metadata o !! name = Some cols) /\
  (forall table_id schema tpf,
      let o := self (snd (create_table be table_id schema tpf w)) in
      project_id o = project_id (self w) /\
      dataset_id o = dataset_id (self w) /\
      engine o = engine (self w) /\
      dom (metadata (self w)) ⊆ dom (metadata o)).
Proof.
  split; [|split; [|split]].
  - intros query. apply execute_query_self.
  - intros table_id. apply delete_table_self.
  - intros table_id o. subst o.
    destruct (metadata (self w) !! qualified w table_id) as [cols|] eqn:Hreg.
    + rewrite (get_table_registered be table_id cols w Hreg). cbn. auto.
    + destruct (be_autoload be (history w) (qualified w table_id)) as [e|cols] eqn:Hc.
      * pose proof (get_table_failure be table_id e w Hreg Hc) as Hfail.
        unfold reports_absent in Hfail. rewrite Hfail. cbn. auto.
      * rewrite (get_table_reflects be table_id cols w Hreg Hc). cbn.
        repeat split. intros name cols' Hname.
        rewrite lookup_insert_ne; [exact Hname|].
        intros <-. congruence.
  - intros table_id schema tpf o. subst o. rewrite create_table_self. cbn.
    repeat split. unfold define_table. rewrite dom_insert_L. set_solver.
Qed.

(** X4: once [create_table] has been called for a table id, [get_table] of
    that id returns a handle with the registered columns and asks the
    backend nothing: whether the creation succeeded, failed or gave up, and
    also after [delete_table] has dropped the table. *)
Theorem get_table_after_create_and_delete (be1 be2 be3 : backend) (w : world)
    (table_id : string) (schema : list (string * coltype)) (tpf : option string) :
  let w1 := snd (create_table be1 table_id schema tpf w) in
  let w2 := snd (delete_table be2 table_id w1) in
  exists cols,
    define_table (qualified w table_id) schema (metadata (self w))
      !! qualified w table_id = Some cols /\
    get_table be3 table_id w1 =
      (Returns (Some {| table_name := qualified w table_id; table_columns := cols |}),
       w1) /\
    get_table be3 table_id w2 =
      (Returns (Some {| table_name := qualified w table_id; table_columns := cols |}),
       w2).
Proof.
  intros w1 w2.
  destruct (define_table_lookup (qualified w table_id) schema (metadata (self w)))
    as [cols Hcols].
  exists cols. split; [exact Hcols|].
  assert (self w1 =
          set_metadata (define_table (qualified w table_id) schema (metadata (self w)))
            (self w)) as Hself1 by apply create_table_self.
  assert (self w2 = self w1) as Hself2 by apply delete_table_self.
  assert (qualified w1 table_id = qualified w table_id) as Hq1
    by (unfold qualified; now rewrite Hself1).
  assert (qualified w2 table_id = qualified w table_id) as Hq2
    by (unfold qualified; now rewrite Hself2, Hself1).
  split.
  - rewrite <- Hq1. apply get_table_registered. rewrite Hq1, Hself1. exact Hcols.
  - rewrite <- Hq2. apply get_table_registered. rewrite Hq2, Hself2, Hself1.
    exact Hcols.
Qed.

(** A handle for a table that was never created: every creation attempt
    failed, and [get_table] still returns the definition. *)
Example get_table_after_failed_create :
  let w1 := snd (create_table (be_failing exn_forbidden 0) "t" [("a", Integer)]
                   None fresh) in
  fst (get_table (be_failing exn_not_found 0) "t" w1) =
    Returns (Some {| table_name := "d.t";
                     table_columns :=
                       [{| column_name := "a"; column_type := Integer |}] |}).
Proof. reflexivity. Qed.

(** ** Tables of one facade do not interfere *)

Lemma string_app_inv_head a b c : a +:+ b = a +:+ c -> b = c.
Proof.
  induction a as [|x a IH]; cbn; intros H; [exact H|].
  injection H as H. now apply IH.
Qed.

Lemma qualified_inj w t1 t2 : qualified w t1 = qualified w t2 -> t1 = t2.
Proof.
  unfold qualified. intros H.
  apply string_app_inv_head in H. now apply string_app_inv_head in H.
Qed.

Lemma get_table_found be table_id w t w1 :
  get_table be table_id w = (Returns (Some t), w1) ->
  dataset_id (self w1) = dataset_id (self w) /\
  table_name t = qualified w table_id /\
  metadata (self w1) !! qualified w table_id = Some (table_columns t).
Proof.
  intros Hget.
  destruct (metadata (self w) !! qualified w table_id) as [cols|] eqn:Hreg.
  - rewrite (get_table_registered be table_id cols w Hreg) in Hget.
    injection Hget as <- <-. auto.
  - destruct (be_autoload be (history w) (qualified w table_id)) as [e|cols] eqn:Hc.
    + pose proof (get_table_failure be table_id e w Hreg Hc) as Hfail.
      unfold reports_absent in Hfail. rewrite Hfail in Hget. discriminate Hget.
    + rewrite (get_table_reflects be table_id cols w Hreg Hc) in Hget.
      injection Hget as <- <-.
      cbn [self with_history with_metadata set_metadata dataset_id metadata].
      rewrite foldl_append_column_name, lookup_insert_eq. auto.
Qed.

Lemma get_table_keeps_registered be table_id w name cols :
  metadata (self w) !! name = Some cols ->
  dataset_id (self (snd (get_table be table_id w))) = dataset_id (self w) /\
  metadata (self (snd (get_table be table_id w))) !! name = Some cols.
Proof.
  intros Hname.
  destruct (metadata (self w) !! qualified w table_id) as [cols'|] eqn:Hreg.
  - rewrite (get_table_registered be table_id cols' w Hreg). auto.
  - destruct (be_autoload be (history w) (qualified w table_id)) as [e|cols'] eqn:Hc.
    + pose proof (get_table_failure be table_id e w Hreg Hc) as Hfail.
      unfold reports_absent in Hfail. rewrite Hfail. auto.
    + rewrite (get_table_reflects be table_id cols' w Hreg Hc).
      cbn [snd self with_history with_metadata set_metadata dataset_id metadata].
      split; [reflexivity|].
      rewrite lookup_insert_ne; [exact Hname|]. intros <-. congruence.
Qed.

Lemma after_call_keeps_registered be c w table_id cols :
  metadata (self w) !! qualified w table_id = Some cols ->
  dataset_id (self (after_call be c w)) = dataset_id (self w) /\
  exists cols',
    metadata (self (after_call be c w)) !! qualified w table_id = Some cols' /\
    (redefines table_id c = false -> cols' = cols).
Proof.
  intros Hreg. destruct c as [query | id | id schema tpf | id]; cbn [after_call redefines].
  - rewrite execute_query_self. eauto.
  - destruct (get_table_keeps_registered be id w _ cols Hreg) as [Hd Hm]. eauto.
  - rewrite create_table_self. cbn [self set_metadata dataset_id metadata].
    split; [reflexivity|].
    destruct (String.eqb_spec id table_id) as [-> | Hne].
    + destruct (define_table_lookup (qualified w table_id) schema (metadata (self w)))
        as [cols' Hcols'].
      exists cols'. split; [exact Hcols' | discriminate].
    + exists cols. split; [|reflexivity].
      rewrite define_table_other; [exact Hreg|].
      intros Heq. apply qualified_inj in Heq. congruence.
  - rewrite delete_table_self. eauto.
Qed.

Lemma after_calls_keep_registered calls :
  forall w table_id cols,
    metadata (self w) !! qualified w table_id = Some cols ->
    dataset_id (self (after_calls calls w)) = dataset_id (self w) /\
    exists cols',
      metadata (self (after_calls calls w)) !! qualified w table_id = Some cols' /\
      (forallb (fun bc => negb (redefines table_id (snd bc))) calls = true ->
       cols' = cols).
Proof.
  induction calls as [|[be c] calls IH]; intros w table_id cols Hreg.
  - cbn. eauto.
  - cbn [after_calls foldl fst snd forallb].
    destruct (after_call_keeps_registered be c w table_id cols Hreg)
      as (Hd & cols1 & Hreg1 & Hsame1).
    assert (qualified (after_call be c w) table_id = qualified w table_id) as Hq
      by (unfold qualified; now rewrite Hd).
    rewrite <- Hq in Hreg1.
    destruct (IH (after_call be c w) table_id cols1 Hreg1)
      as (Hd' & cols' & Hreg' & Hsame').
    fold (after_calls calls (after_call be c w)).
    split; [now rewrite Hd', Hd|].
    exists cols'. rewrite <- Hq. split; [exact Hreg'|].
    intros Hall. apply andb_true_iff in Hall as [Hc Hall].
    apply negb_true_iff in Hc. rewrite (Hsame' Hall). now apply Hsame1.
Qed.

(** X2: a table that [get_table] has found once is found for good on that
    facade.  After any further calls of the four methods, whatever their
    backends answer and however they end, [get_table] of the same id
    returns a handle of the same table and asks the backend nothing, the
    facade and the history are as they were, whatever the backend would
    answer then: a table dropped or altered in the meantime is not
    noticed.  The handle is the one found first, unless a [create_table] of
    that id came between. *)
Theorem get_table_caches_handle (be be' : backend) (w w1 : world)
    (table_id : string) (t : Table) (calls : list (backend * call)) :
  get_table be table_id w = (Returns (Some t), w1) ->
  let w2 := after_calls calls w1 in
  exists t',
    get_table be' table_id w2 = (Returns (Some t'), w2) /\
    table_name t' = table_name t /\
    (forallb (fun bc => negb (redefines table_id (snd bc))) calls = true -> t' = t).
Proof.
  intros Hget w2.
  destruct (get_table_found be table_id w t w1 Hget) as (Hd & Hname & Hreg).
  assert (qualified w1 table_id = qualified w table_id) as Hq
    by (unfold qualified; now rewrite Hd).
  rewrite <- Hq in Hreg, Hname.
  destruct (after_calls_keep_registered calls w1 table_id (table_columns t) Hreg)
    as (Hd2 & cols' & Hreg2 & Hsame).
  fold w2 in Hd2, Hreg2.
  assert (qualified w2 table_id = qualified w1 table_id) as Hq2
    by (unfold qualified; now rewrite Hd2).
  rewrite <- Hq2 in Hreg2.
  exists {| table_name := qualified w2 table_id; table_columns := cols' |}.
  split; [now apply get_table_registered|].
  split; [cbn; now rewrite Hq2, Hname|].
  intros Hall. rewrite (Hsame Hall), Hq2, <- Hname. now destruct t.
Qed.

Lemma get_table_caches_handle_witness :
  let found := {| table_name := "d.t";
                  table_columns := [{| column_name := "x"; column_type := Integer |}] |} in
  let calls := [(be_failing exn_forbidden 0, CallDeleteTable "t");
                (be_ok, CallCreateTable "u" [("a", Integer)] None);
                (be_unreachable, CallExecuteQuery "SELECT 1");
                (be_failing exn_not_found 0, CallGetTable "v")] in
  get_table be_ok "t" fresh = (Returns (Some found), snd (get_table be_ok "t" fresh)) /\
  get_table (be_failing exn_not_found 0) "t"
    (after_calls calls (snd (get_table be_ok "t" fresh))) =
    (Returns (Some found), after_calls calls (snd (get_table be_ok "t" fresh))).
Proof.
  cbv zeta.
  assert (get_table be_ok "t" fresh =
          (Returns (Some {| table_name := "d.t";
                            table_columns :=
                              [{| column_name := "x"; column_type := Integer |}] |}),
           snd (get_table be_ok "t" fresh))) as H by reflexivity.
  split; [exact H|].
  destruct (get_table_caches_handle be_ok (be_failing exn_not_found 0) fresh _ "t" _
              [(be_failing exn_forbidden 0, CallDeleteTable "t");
               (be_ok, CallCreateTable "u" [("a", Integer)] None);
               (be_unreachable, CallExecuteQuery "SELECT 1");
               (be_failing exn_not_found 0, CallGetTable "v")] H)
    as (t' & Hget' & _ & Hsame).
  rewrite Hget'. now rewrite (Hsame eq_refl).
Defined.


(** X5: tables of one facade do not interfere: for two different table
    ids, [create_table] of the one leaves the registered definition of the
    other as it was, and so does [get_table]. *)
Theorem other_table_untouched (be : backend) (w : world) (t1 t2 : string)
    (schema : list (string * coltype)) (tpf : option string) :
  t1 <> t2 ->
  metadata (self (snd (create_table be t2 schema tpf w))) !! qualified w t1 =
    metadata (self w) !! qualified w t1 /\
  metadata (self (snd (get_table be t2 w))) !! qualified w t1 =
    metadata (self w) !! qualified w t1.
Proof.
  intros Hne.
  assert (qualified w t2 <> qualified w t1) as Hq
    by (intros H; apply qualified_inj in H; congruence).
  split.
  - rewrite create_table_self. cbn. now apply define_table_other.
  - destruct (metadata (self w) !! qualified w t2) as [cols|] eqn:Hreg.
    + now rewrite (get_table_registered be t2 cols w Hreg).
    + destruct (be_autoload be (history w) (qualified w t2)) as [e|cols] eqn:Hc.
      * pose proof (get_table_failure be t2 e w Hreg Hc) as Hfail.
        unfold reports_absent in Hfail. now rewrite Hfail.
      * rewrite (get_table_reflects be t2 cols w Hreg Hc). cbn.
        now rewrite lookup_insert_ne.
Qed.

Lemma other_table_untouched_witness :
  "a" <> "b" /\
  metadata (self (snd (create_table be_ok "b" [("x", Integer)] None fresh)))
    !! qualified fresh "a" = metadata (self fresh) !! qualified fresh "a".
Proof.
  assert ("a" <> "b") as Hne by discriminate.
  split; [exact Hne|].
  exact (proj1 (other_table_untouched be_ok fresh "a" "b" [("x", Integer)] None Hne)).
Defined.

(** ** Columns of a redefined table *)

Lemma first_named_replace_same c cols :
  first_named (column_name c) (replace_column c cols) = Some c.
Proof.
  induction cols as [|c' cols IH]; cbn.
  - now rewrite String.eqb_refl.
  - destruct (String.eqb (column_name c') (column_name c)) eqn:E; cbn.
    + now rewrite String.eqb_refl.
    + now rewrite E.
Qed.

Lemma first_named_replace_other c cols n :
  n <> column_name c ->
  first_named n (replace_column c cols) = first_named n cols.
Proof.
  intros Hne. induction cols as [|c' cols IH]; cbn.
  - destruct (String.eqb_spec (column_name c) n); [congruence | reflexivity].
  - destruct (String.eqb_spec (column_name c') (column_name c)) as [E|E]; cbn.
    + destruct (String.eqb_spec (column_name c) n); [congruence|].
      destruct (String.eqb_spec (column_name c') n); [congruence | reflexivity].
    + now rewrite IH.
Qed.

Lemma replace_column_id c cols :
  first_named (column_name c) cols = Some c -> replace_column c cols = cols.
Proof.
  induction cols as [|c' cols IH]; cbn; [discriminate|].
  destruct (String.eqb (column_name c') (column_name c)).
  - intros H. now injection H as ->.
  - intros H. now rewrite IH.
Qed.

Lemma foldl_replace_column_lookup schema :
  NoDup (map fst schema) ->
  forall acc,
    (forall entry,
        entry ∈ schema ->
        first_named (fst entry)
          (foldl (fun cols '(n, ty) =>
                    replace_column {| column_name := n; column_type := ty |} cols)
                 acc schema) = Some (column_of entry)) /\
    (forall n,
        n ∉ map fst schema ->
        first_named n
          (foldl (fun cols '(n, ty) =>
                    replace_column {| column_name := n; column_type := ty |} cols)
                 acc schema) = first_named n acc).
Proof.
  induction schema as [|[n0 ty0] schema IH]; intros Hnd acc.
  - split; [intros entry H; now apply elem_of_nil in H | reflexivity].
  - cbn [map fst] in Hnd. apply NoDup_cons in Hnd as [Hn0 Hnd].
    cbn [foldl].
    destruct (IH Hnd (replace_column {| column_name := n0; column_type := ty0 |} acc))
      as [IHin IHout].
    split.
    + intros entry Hentry. apply elem_of_cons in Hentry as [->|Hentry].
      * cbn [fst]. rewrite IHout by exact Hn0.
        apply (first_named_replace_same {| column_name := n0; column_type := ty0 |}).
      * now apply IHin.
    + intros n Hn. cbn [map fst] in Hn. apply not_elem_of_cons in Hn as [Hne Hn].
      rewrite IHout by exact Hn.
      now apply first_named_replace_other.
Qed.

Lemma foldl_replace_column_id schema :
  forall acc,
    (forall entry, entry ∈ schema ->
                   first_named (fst entry) acc = Some (column_of entry)) ->
    foldl (fun cols '(n, ty) =>
             replace_column {| column_name := n; column_type := ty |} cols)
          acc schema = acc.
Proof.
  induction schema as [|[n0 ty0] schema IH]; intros acc Hall; [reflexivity|].
  cbn [foldl].
  rewrite (replace_column_id {| column_name := n0; column_type := ty0 |})
    by (apply (Hall (n0, ty0)); left).
  apply IH. intros entry Hentry. apply Hall. now right.
Qed.

(** X6: whatever the facade held before, after
    [create_table(table_id, schema)] the registered definition of the table
    answers by name as the schema says: the column found under each name of
    the schema is the schema's column, with its type, and the column found
    under any other name is the one that was found before. *)
Theorem schema_columns_found_by_name (be : backend) (w : world) (table_id : string)
    (schema : list (string * coltype)) (tpf : option string) :
  NoDup (map fst schema) ->
  let name := dataset_id (self w) +:+ "." +:+ table_id in
  exists cols,
    metadata (self (snd (create_table be table_id schema tpf w))) !! name = Some cols /\
    (forall n ty,
        (n, ty) ∈ schema ->
        first_named n cols = Some {| column_name := n; column_type := ty |}) /\
    (forall n,
        n ∉ map fst schema ->
        first_named n cols = first_named n (default [] (metadata (self w) !! name))).
Proof.
  intros Hnd name. rewrite create_table_self. cbn [metadata set_metadata].
  fold (qualified w table_id) in name. subst name.
  unfold define_table. rewrite lookup_insert_eq.
  eexists. split; [reflexivity|].
  destruct (foldl_replace_column_lookup schema Hnd
              (default [] (metadata (self w) !! qualified w table_id)))
    as [Hin Hout].
  split.
  - intros n ty Hentry. exact (Hin (n, ty) Hentry).
  - exact Hout.
Qed.

Lemma schema_columns_found_by_name_witness :
  NoDup (map fst [("a", String_)]) /\
  exists cols,
    metadata
      (self (snd (create_table be_ok "t" [("a", String_)] None
                    (snd (create_table be_ok "t" [("a", Integer); ("b", Integer)]
                            None fresh))))) !! "d.t" = Some cols /\
    first_named "a" cols = Some {| column_name := "a"; column_type := String_ |}.
Proof.
  assert (NoDup (map fst [("a", String_)])) as Hnd by (cbn; apply NoDup_singleton).
  split; [exact Hnd|].
  destruct (schema_columns_found_by_name be_ok
              (snd (create_table be_ok "t" [("a", Integer); ("b", Integer)] None fresh))
              "t" [("a", String_)] None Hnd) as (cols & Hcols & Hin & _).
  exists cols. split; [exact Hcols|].
  apply Hin. left.
Defined.

Lemma define_table_idem name schema md :
  NoDup (map fst schema) ->
  define_table name schema (define_table name schema md) =
  define_table name schema md.
Proof.
  intros Hnd. unfold define_table. rewrite lookup_insert_eq. cbn [default].
  rewrite insert_insert_eq. f_equal.
  apply foldl_replace_column_id.
  intros entry Hentry.
  now apply (foldl_replace_column_lookup schema Hnd).
Qed.

(** X7: calling [create_table] again with the same schema changes nothing
    in the registry: the definition registered by the first call is the one
    left by the second, whatever the backends answer. *)
Theorem create_table_again_same_registry (be be' : backend) (w : world)
    (table_id : string) (schema : list (string * coltype))
    (tpf tpf' : option string) :
  NoDup (map fst schema) ->
  let w1 := snd (create_table be table_id schema tpf w) in
  metadata (self (snd (create_table be' table_id schema tpf' w1))) =
  metadata (self w1).
Proof.
  intros Hnd w1. subst w1.
  rewrite (create_table_self be'). unfold qualified.
  rewrite !(create_table_self be). cbn [self metadata set_metadata dataset_id].
  now apply define_table_idem.
Qed.

Lemma create_table_again_same_registry_witness :
  NoDup (map fst [("a", Integer); ("b", String_)]) /\
  metadata
    (self (snd (create_table (be_failing exn_forbidden 0) "t"
                  [("a", Integer); ("b", String_)] None
                  (snd (create_table be_ok "t" [("a", Integer); ("b", String_)]
                          None fresh))))) =
  metadata (self (snd (create_table be_ok "t" [("a", Integer); ("b", String_)]
                         None fresh))).
Proof.
  assert (NoDup (map fst [("a", Integer); ("b", String_)])) as Hnd
    by (cbn; apply (bool_decide_unpack _); reflexivity).
  split; [exact Hnd|].
  exact (create_table_again_same_registry be_ok (be_failing exn_forbidden 0) fresh "t"
           [("a", Integer); ("b", String_)] None None Hnd).
Defined.

(** X8: a facade starts with an empty registry.  [create_engine] may
    raise, and then there is no facade; on the facade that the constructor
    returns for a project and a dataset, every creation attempt of the
    first [create_table] submits one table and no other,
    [dataset.table_id] with the columns of the schema. *)
Theorem first_create_table_submits_one_table (create_engine : string -> option exn)
    (be : backend) (project dataset table_id : string) (o : SQLBigQueryDataSource)
    (schema : list (string * coltype)) (tpf : option string) :
  __init__ create_engine project dataset = inr o ->
  NoDup (map fst schema) ->
  let w := {| self := o; history := [] |} in
  let run := create_table be table_id schema tpf w in
  submitted (new_events w (snd run)) <> [] /\
  Forall (fun md => md = {[ dataset +:+ "." +:+ table_id := map column_of schema ]})
         (submitted (new_events w (snd run))).
Proof.
  intros Hinit Hnd w run. subst run.
  unfold __init__ in Hinit.
  destruct (create_engine ("bigquery://" +:+ project)) as [e|]; [discriminate Hinit|].
  injection Hinit as <-.
  destruct (create_table_run be table_id schema tpf w) as (evs & out & Hrun & Hr).
  rewrite Hrun. cbn [fst snd]. rewrite new_events_with_metadata.
  apply create_run_submitted in Hr. destruct Hr as (Hall & Hne & _).
  split; [apply Hne; reflexivity|].
  eapply Forall_impl; [exact Hall|]. intros md <-.
  unfold define_table, w, qualified.
  cbn [self metadata dataset_id].
  rewrite lookup_empty. cbn [default].
  rewrite foldl_replace_column_fresh; [reflexivity | exact Hnd |].
  intros n _ Hin. cbn in Hin. now apply elem_of_nil in Hin.
Qed.

Lemma first_create_table_submits_one_table_witness :
  __init__ (fun _ => None) "p" "d" = inr (self fresh) /\
  NoDup (map fst [("a", Integer)]) /\
  Forall (fun md => md = {[ "d.t" := [{| column_name := "a"; column_type := Integer |}] ]})
    (submitted
       (new_events fresh (snd (create_table be_ok "t" [("a", Integer)] None fresh)))).
Proof.
  assert (NoDup (map fst [("a", Integer)])) as Hnd by (cbn; apply NoDup_singleton).
  split; [reflexivity|]. split; [exact Hnd|].
  exact (proj2 (first_create_table_submits_one_table (fun _ => None) be_ok "p" "d" "t"
                  (self fresh) [("a", Integer)] None eq_refl Hnd)).
Defined.


(** ** [create_table] on any backend *)

Lemma create_delays_within bits :
  forall n,
    (0 <= n)%Z -> (n + Z.of_nat (length bits) <= 5)%Z ->
    Forall (fun b => 0 <= b < 2 ^ 53)%Z bits ->
    within_bounds_from n (create_delays n bits) = true.
Proof.
  induction bits as [|b bits IH]; intros n Hn Hlen Hall; [reflexivity|].
  apply Forall_cons in Hall as [Hb Hall]. cbn [length] in Hlen.
  cbn [create_delays within_bounds_from].
  rewrite create_delay_within by lia. rewrite IH by (try exact Hall; lia).
  reflexivity.
Qed.

Lemma create_run_trace be name md n h evs out :
  create_run be name md n h evs out ->
  (0 <= n <= max_retries)%Z ->
  sleeps evs = create_delays n (draws evs) /\
  Forall (fun b => 0 <= b < 2 ^ 53)%Z (draws evs) /\
  debugged evs = map LogRateLimit (sleeps evs) /\
  (n + Z.of_nat (length (submitted evs)) <= max_retries)%Z /\
  length (submitted evs) =
    (length (draws evs) + match out with Returns false => 0 | _ => 1 end)%nat.
Proof.
  induction 1 as [n h Hn | n h Hn Hc | n h e Hn Hc Hm
                 | n h e evs out Hn Hc Hm round Hrun IH]; intros Hrange.
  - cbn. repeat split; try constructor; lia.
  - cbn. repeat split; try constructor; lia.
  - cbn. repeat split; try constructor; lia.
  - destruct IH as (Hsl & Hall & Hdbg & Hlen & Hsub); [lia|].
    subst round. unfold sleeps, draws, debugged, submitted, create_round in *.
    rewrite !omap_app. cbn. rewrite Hsl, Hdbg, Hsub.
    split; [reflexivity|]. split.
    + constructor; [|exact Hall]. unfold drawn_bits.
      apply Z.mod_pos_bound. reflexivity.
    + split; [rewrite <- Hsl; reflexivity|]. split; [cbn [length]; lia | reflexivity].
Qed.

(** X9: whatever the backend answers, [create_table] makes at least one
    and at most five creation attempts and never sleeps more often than it
    attempts.  Its n-th sleep (n from 0) is computed from one draw of its
    own, lies between [2^n] and [2^n + 1] seconds, ends included, and is the
    delay that the debug line for it announces. *)
Theorem create_table_backoff_on_any_backend (be : backend) (w : world)
    (table_id : string) (schema : list (string * coltype)) (tpf : option string) :
  let evs := new_events w (snd (create_table be table_id schema tpf w)) in
  (1 <= length (submitted evs) <= 5)%nat /\
  (length (sleeps evs) <= length (submitted evs))%nat /\
  length (draws evs) = length (sleeps evs) /\
  sleeps evs = create_delays 0 (draws evs) /\
  within_bounds_from 0 (sleeps evs) = true /\
  debugged evs = map LogRateLimit (sleeps evs).
Proof.
  intros evs. subst evs.
  destruct (create_table_run be table_id schema tpf w) as (evs & out & Hrun & Hr).
  rewrite Hrun. cbn [snd]. rewrite new_events_with_metadata.
  destruct (create_run_trace _ _ _ _ _ _ _ Hr) as (Hsl & Hall & Hdbg & Hlen & Hsub);
    [unfold max_retries; lia|].
  pose proof (create_run_submitted _ _ _ _ _ _ _ Hr) as (_ & Hne & _).
  assert (length (sleeps evs) = length (draws evs)) as Hsame.
  { rewrite Hsl. clear. generalize 0%Z. induction (draws evs) as [|b bits IH];
      intros n; cbn; [reflexivity | now rewrite IH]. }
  unfold max_retries in Hlen.
  assert (submitted evs <> []) as Hne' by (apply Hne; reflexivity).
  assert (1 <= length (submitted evs))%nat
    by (destruct (submitted evs); [congruence | cbn; lia]).
  repeat split.
  - assumption.
  - lia.
  - rewrite Hsub, Hsame. lia.
  - now rewrite Hsame.
  - exact Hsl.
  - rewrite Hsl. apply create_delays_within; [lia | lia | exact Hall].
  - exact Hdbg.
Qed.




(** ** [delete_table] on any backend *)

Lemma open_connections_app a b :
  open_connections (a ++ b) = (open_connections a + open_connections b)%Z.
Proof.
  induction a as [|ev a IH]; [reflexivity|].
  destruct ev as [[e|]| | | | | | | | |]; cbn; rewrite ?IH; lia.
Qed.

Lemma drop_block_cases be h stmt :
  (exists e, drop_block be h stmt = (Some e, [EvConnect (Some e)])) \/
  (exists e, drop_block be h stmt =
             (Some e, [EvConnect None; EvExecute stmt (Some e); EvClose])) \/
  drop_block be h stmt = (None, [EvConnect None; EvExecute stmt None; EvClose]).
Proof.
  unfold drop_block. destruct (be_connect be h) as [e|]; [eauto|].
  destruct (be_execute be (h ++ [EvConnect None]) stmt) as [e|keys]; eauto.
Qed.

Lemma delete_run_trace be name n h evs out :
  delete_run be name n h evs out ->
  (0 <= n <= max_retries)%Z ->
  open_connections evs = 0%Z /\
  Forall (eq (drop_statement name)) (executions evs) /\
  draws evs = [] /\ submitted evs = [] /\
  sleeps evs = delete_delays n (length (sleeps evs)) /\
  (n + Z.of_nat (length (connections evs)) <= max_retries)%Z /\
  ((n < max_retries)%Z -> (1 <= length (connections evs))%nat) /\
  (length (executions evs) <= length (connections evs))%nat /\
  (length (sleeps evs) <= length (connections evs))%nat.
Proof.
  induction 1 as [n h Hn | n h Hn Hc | n h e Hn Hc Hm
                 | n h e evs out Hn Hc Hm round Hrun IH]; intros Hrange.
  - cbn. repeat split; try constructor; lia.
  - destruct (drop_block_cases be h (drop_statement name))
      as [[e He] | [[e He] | He]]; rewrite He in *; try discriminate Hc.
    cbn. repeat split; try (repeat constructor); lia.
  - destruct (drop_block_cases be h (drop_statement name))
      as [[e' He] | [[e' He] | He]]; rewrite He in *; try discriminate Hc;
      cbn; repeat split; try (repeat constructor); lia.
  - destruct IH as (Hopen & Hex & Hdr & Hsub & Hsl & Hconn & _ & Hle1 & Hle2); [lia|].
    subst round. unfold delete_round.
    rewrite !open_connections_app.
    unfold executions, draws, submitted, sleeps, connections in *.
    rewrite !omap_app.
    destruct (drop_block_cases be h (drop_statement name))
      as [[e' He] | [[e' He] | He]]; rewrite He in *; try discriminate Hc;
      cbn in *; rewrite ?Hdr, ?Hsub, ?Hopen;
      repeat split;
      first [ lia | assumption | f_equal; exact Hsl
            | constructor; [reflexivity | assumption] | intros _; lia ].
Qed.

(** X11: whatever the backend answers, [delete_table] asks for at least
    one and at most five connections, releases every connection it
    obtained, executes nothing but [DROP TABLE IF EXISTS dataset.table_id],
    at most once per connection, draws no random number and never calls
    [create_all]; and its n-th sleep (n from 0) is of [(2**n) * 0.1]
    seconds, so they are at most five. *)
Theorem delete_table_discipline_on_any_backend (be : backend) (w : world)
    (table_id : string) :
  let evs := new_events w (snd (delete_table be table_id w)) in
  let stmt := "DROP TABLE IF EXISTS " +:+ dataset_id (self w) +:+ "." +:+ table_id in
  open_connections evs = 0%Z /\
  Forall (eq stmt) (executions evs) /\
  (1 <= length (connections evs) <= 5)%nat /\
  (length (executions evs) <= length (connections evs))%nat /\
  (length (sleeps evs) <= length (connections evs))%nat /\
  sleeps evs = delete_delays 0 (length (sleeps evs)) /\
  draws evs = [] /\ submitted evs = [].
Proof.
  intros evs stmt. subst evs stmt.
  destruct (delete_table_run be table_id w) as (evs & out & Hrun & Hr).
  rewrite Hrun. cbn [snd]. rewrite new_events_with_history.
  destruct (delete_run_trace _ _ _ _ _ _ Hr)
    as (Hopen & Hex & Hdr & Hsub & Hsl & Hconn & Hone & Hle1 & Hle2);
    [unfold max_retries; lia|].
  unfold max_retries in *. specialize (Hone ltac:(lia)).
  repeat split; try assumption; lia.
Qed.



(** ** Connections refused inside the retry loop *)

Lemma drop_block_refused be e h stmt :
  (forall h', be_connect be h' = Some e) ->
  drop_block be h stmt = (Some e, [EvConnect (Some e)]).
Proof. intros Hc. unfold drop_block. now rewrite Hc. Qed.

Lemma delete_run_refused be name e n h evs out :
  delete_run be name n h evs out ->
  (forall h', be_connect be h' = Some e) ->
  PyStr.contains quota_marker (exn_str e) = true ->
  (0 <= n <= max_retries)%Z ->
  out = Returns tt /\
  executions evs = [] /\
  printed evs = [] /\
  connections evs = replicate (Z.to_nat (max_retries - n)) (Some e) /\
  sleeps evs = delete_delays n (Z.to_nat (max_retries - n)).
Proof.
  intros Hrun Hall Hmark.
  induction Hrun as [n h Hn | n h Hn Hc | n h e' Hn Hc Hm
                    | n h e' evs out Hn Hc Hm round Hrun IH]; intros Hrange.
  - replace (max_retries - n)%Z with 0%Z by lia. cbn. auto.
  - rewrite (drop_block_refused be e h _ Hall) in Hc. discriminate Hc.
  - rewrite (drop_block_refused be e h _ Hall) in Hc. injection Hc as <-.
    congruence.
  - destruct IH as (-> & Hex & Hp & Hconn & Hsl); [lia|].
    subst round. rewrite (drop_block_refused be e h _ Hall).
    unfold delete_round, executions, printed, connections, sleeps in *.
    rewrite !omap_app. cbn.
    replace (Z.to_nat (max_retries - n)) with (S (Z.to_nat (max_retries - (n + 1))))
      by lia.
    cbn. rewrite Hex, Hp, Hconn, Hsl. auto.
Qed.

(** X13: [engine.connect()] is called inside the [try] of [delete_table],
    so a refused connection is handled like a failed statement.  On a
    backend that refuses every connection with the error [e], nothing is
    ever executed; when the message of [e] holds the quota substring the
    connection is asked for five times, each refusal followed by the
    sleep of the backoff, and the call returns normally; otherwise [e] is
    raised after the first refusal, with no sleep. *)
Theorem delete_table_connection_refused (be : backend) (w : world)
    (table_id : string) (e : exn) :
  (forall h, be_connect be h = Some e) ->
  let run := delete_table be table_id w in
  let evs := new_events w (snd run) in
  executions evs = [] /\ printed evs = [] /\
  if PyStr.contains "exceeded quota for table update operations" (exn_str e)
  then fst run = Returns tt /\
       connections evs = replicate 5 (Some e) /\
       sleeps evs = delete_delays 0 5
  else fst run = Raises e /\
       connections evs = [Some e] /\
       sleeps evs = [].
Proof.
  intros Hall run evs. subst run evs.
  destruct (delete_table_run be table_id w) as (evs & out & Hrun & Hr).
  rewrite Hrun. cbn [fst snd]. rewrite new_events_with_history.
  change "exceeded quota for table update operations" with quota_marker.
  destruct (PyStr.contains quota_marker (exn_str e)) eqn:Hmark.
  - destruct (delete_run_refused _ _ _ _ _ _ _ Hr Hall Hmark)
      as (-> & Hex & Hp & Hconn & Hsl); [unfold max_retries; lia|].
    auto.
  - inversion Hr as [n h Hn | n h Hn Hc | n h e' Hn Hc Hm
                    | n h e' evs' out' Hn Hc Hm Hrun']; subst.
    + unfold max_retries in Hn. lia.
    + rewrite (drop_block_refused be e _ _ Hall) in Hc. discriminate Hc.
    + rewrite (drop_block_refused be e _ _ Hall) in Hc |- *.
      injection Hc as <-. cbn. auto.
    + rewrite (drop_block_refused be e _ _ Hall) in Hc. injection Hc as <-.
      congruence.
Qed.

Lemma delete_table_connection_refused_witness :
  (forall h, be_connect (be_refusing exn_quota) h = Some exn_quota) /\
  fst (delete_table (be_refusing exn_quota) "t" fresh) = Returns tt /\
  connections (new_events fresh (snd (delete_table (be_refusing exn_quota) "t" fresh)))
  = replicate 5 (Some exn_quota).
Proof.
  split; [reflexivity|].
  pose proof (delete_table_connection_refused (be_refusing exn_quota) fresh "t"
                exn_quota (fun _ => eq_refl)) as H.
  cbv zeta in H. destruct H as (_ & _ & H).
  change (PyStr.contains "exceeded quota for table update operations"
            (exn_str exn_quota)) with true in H.
  destruct H as (Hret & Hconn & _). split; assumption.
Defined.

(** ** The backoff never shortens *)

Lemma SFleb_trans_finite m1 e1 m2 e2 m3 e3 :
  SFleb (S754_finite false m1 e1) (S754_finite false m2 e2) = true ->
  SFleb (S754_finite false m2 e2) (S754_finite false m3 e3) = true ->
  SFleb (S754_finite false m1 e1) (S754_finite false m3 e3) = true.
Proof.
  unfold SFleb, SFcompare.
  change (Pos.compare_cont Eq m1 m2) with (Pos.compare m1 m2).
  change (Pos.compare_cont Eq m2 m3) with (Pos.compare m2 m3).
  change (Pos.compare_cont Eq m1 m3) with (Pos.compare m1 m3).
  destruct (Z.compare_spec e1 e2), (Z.compare_spec e2 e3), (Z.compare_spec e1 e3);
    try lia; try discriminate; try reflexivity; subst;
    destruct (Pos.compare_spec m1 m2), (Pos.compare_spec m2 m3),
      (Pos.compare_spec m1 m3);
    try lia; try discriminate; reflexivity.
Qed.

Lemma within_closed_finite n d :
  (0 <= n <= 4)%Z -> within_closed n d = true ->
  exists m e, d = S754_finite false m e.
Proof.
  intros Hn H. unfold within_closed in H.
  apply andb_true_iff in H as [Hlo Hhi].
  rewrite of_int_pow2 in Hlo by exact Hn.
  assert (exists m' e', PyFloat.of_int (2 ^ n + 1) = S754_finite false m' e')
    as (m' & e' & Hup).
  { assert (n = 0 \/ n = 1 \/ n = 2 \/ n = 3 \/ n = 4)%Z as Hcases by lia.
    destruct Hcases as [-> | [-> | [-> | [-> | ->]]]]; eexists _, _; reflexivity. }
  rewrite Hup in Hhi.
  destruct d as [s|s| |s m e]; try destruct s; try discriminate; eauto.
Qed.

Lemma within_closed_step n d d' :
  (0 <= n <= 3)%Z ->
  within_closed n d = true -> within_closed (n + 1) d' = true ->
  PyFloat.leb d d' = true.
Proof.
  intros Hn Hd Hd'.
  destruct (within_closed_finite n d) as (m & e & ->); [lia|exact Hd|].
  destruct (within_closed_finite (n + 1) d') as (m' & e' & ->); [lia|exact Hd'|].
  unfold within_closed in Hd, Hd'.
  apply andb_true_iff in Hd as [_ Hhi]. apply andb_true_iff in Hd' as [Hlo _].
  unfold PyFloat.leb in *.
  assert (n = 0 \/ n = 1 \/ n = 2 \/ n = 3)%Z as Hcases by lia.
  destruct Hcases as [-> | [-> | [-> | ->]]];
    (eapply SFleb_trans_finite; [|exact Hlo]);
    (eapply SFleb_trans_finite; [exact Hhi|]); reflexivity.
Qed.

Lemma within_bounds_nondecreasing ds :
  forall n,
    (0 <= n)%Z -> (n + Z.of_nat (length ds) <= 5)%Z ->
    within_bounds_from n ds = true -> nondecreasing ds = true.
Proof.
  induction ds as [|d ds IH]; intros n Hn Hlen H; [reflexivity|].
  destruct ds as [|d' ds]; [reflexivity|].
  cbn [within_bounds_from] in H.
  apply andb_true_iff in H as [Hd H].
  pose proof H as Hrest. cbn [within_bounds_from] in H.
  apply andb_true_iff in H as [Hd' _].
  cbn [length] in Hlen.
  change (nondecreasing (d :: d' :: ds))
    with (PyFloat.leb d d' && nondecreasing (d' :: ds)).
  rewrite (within_closed_step n d d') by (try assumption; lia).
  apply (IH (n + 1)%Z); [lia | cbn [length]; lia | exact Hrest].
Qed.

Lemma create_delays_length bits n : length (create_delays n bits) = length bits.
Proof. revert n. induction bits as [|b bits IH]; intros n; cbn; [|rewrite IH]; reflexivity. Qed.

Lemma delete_delays_nondecreasing count :
  (count <= 5)%nat -> nondecreasing (delete_delays 0 count) = true.
Proof.
  intros H. destruct count as [|[|[|[|[|[|count]]]]]]; try reflexivity. lia.
Qed.

(** X14: in both retry loops a sleep is never shorter than the one before
    it, whatever the backend answers and whatever numbers are drawn: the
    random part of a delay of [create_table], at most one second once the
    sum is rounded, cannot undo the doubling of the base. *)
Theorem backoff_never_shortens (be : backend) (w : world) (table_id : string)
    (schema : list (string * coltype)) (time_partitioning_field : option string) :
  nondecreasing
    (sleeps (new_events w
       (snd (create_table be table_id schema time_partitioning_field w)))) = true /\
  nondecreasing
    (sleeps (new_events w (snd (delete_table be table_id w)))) = true.
Proof.
  split.
  - destruct (create_table_run be table_id schema time_partitioning_field w)
      as (evs & out & Hrun & Hr).
    rewrite Hrun. cbn [snd].
    rewrite new_events_with_metadata.
    destruct (create_run_trace _ _ _ _ _ _ _ Hr)
      as (Hsl & Hbits & _ & Hbound & Hlen); [unfold max_retries; lia|].
    rewrite Hsl. unfold max_retries in Hbound.
    apply (within_bounds_nondecreasing _ 0%Z); [lia | |].
    + rewrite create_delays_length. lia.
    + apply create_delays_within; [lia | lia | exact Hbits].
  - destruct (delete_table_run be table_id w) as (evs & out & Hrun & Hr).
    rewrite Hrun. cbn [snd]. rewrite new_events_with_history.
    destruct (delete_run_trace _ _ _ _ _ _ Hr)
      as (_ & _ & _ & _ & Hsl & Hconn & _ & _ & Hle); [unfold max_retries; lia|].
    rewrite Hsl. apply delete_delays_nondecreasing.
    unfold max_retries in Hconn. lia.
Qed.
